(** * Insurance risk analytics: the hypothesis-testing utilities of
    [src/stat_tests.py]

    A shallow embedding of [prepare_kpis], [agg_by_group],
    [chi2_test_frequency], [proportion_ztest_pair],
    [kruskal_test_numeric], [ttest_or_mannwhitney] and
    [pretty_interpret], with the part of pandas and numpy those
    functions use.

    Conventions of the model.
    - float64 is an interface ([Float64]) with the few laws of IEEE 754
      arithmetic the proofs use ([Float64Laws]); [ExactFloat] is an
      instance over exact fractions on which the definitions evaluate.
    - A column ([Series]) carries its dtype: int64, float64 or object.
      int64 subtraction and sums wrap around.
    - A data frame is a row index and an ordered list of named columns.
    - Python objects that are mutated live in a store; a function that
      only reads its table takes the table as a value.
    - Group values are integers and text; grouping by a float64 column
      is outside the model ([NotModelled]).
    - The statistical routines of scipy and statsmodels are parameters
      of the functions that call them, and return. The calls of
      [ttest_or_mannwhitney] are recorded in a log, so that "which test
      ran" is a statement about the log. The normality test and the
      subsampling before it, whose failure the code handles, have a
      result that may be an exception, and so has the Kruskal-Wallis
      test. *)

From Stdlib Require Import ZArith QArith String.
From stdpp Require Import base option list gmap strings sorting.

Local Open Scope string_scope.
Local Open Scope Z_scope.

(** Decide a closed proposition by evaluation. *)
Ltac by_compute := refine (bool_decide_unpack _ _); vm_compute; exact I.

(** ** float64 *)

Class Float64 (F : Type) := {
  nan : F;
  isnan : F → bool;
  of_Z : Z → F;
  (** [fgt x y] is the comparison [x > y]. *)
  fgt : F → F → bool;
  (** [feq x y] is the comparison [x == y]. *)
  feq : F → F → bool;
  fadd : F → F → F;
  fsub : F → F → F;
  fdiv : F → F → F;
  (** [int(x)]; [None] where Python raises (NaN, infinities). *)
  ftrunc : F → option Z;
  (** the literal [0.05] *)
  f0_05 : F;
  (** text to number, as [pd.to_numeric] reads one string: an integer,
      a float, or no number at all. *)
  parse_numeric : string → option (Z + F)
}.

Class Float64Laws (F : Type) `{Float64 F} : Prop := {
  isnan_nan : isnan nan = true;
  fgt_nan_l : ∀ x y, isnan x = true → fgt x y = false;
  fdiv_one : ∀ x, fdiv x (of_Z 1) = x;
  fdiv_nan_l : ∀ x y, isnan x = true → isnan (fdiv x y) = true;
  fsub_nan_r : ∀ x y, isnan y = true → isnan (fsub x y) = true
}.

(** ** Exceptions and the state-and-error monad *)

Inductive exn :=
  | KeyError (c : string)
  | TypeError
  | ValueError
  (** a float64 grouping column: outside the model *)
  | NotModelled.

Inductive result (A : Type) :=
  | Ok (a : A)
  | Raise (e : exn).
Arguments Ok {A} a.
Arguments Raise {A} e.

Definition M (S A : Type) : Type := S → result A * S.

Definition ret {S A} (a : A) : M S A := λ s, (Ok a, s).

Definition bind {S A B} (m : M S A) (k : A → M S B) : M S B :=
  λ s, match m s with
       | (Ok a, s') => k a s'
       | (Raise e, s') => (Raise e, s')
       end.

Definition lift {S A} (r : result A) : M S A := λ s, (r, s).

(** [try: m except Exception: h] *)
Definition try_except {S A} (m : M S A) (h : M S A) : M S A :=
  λ s, match m s with
       | (Ok a, s') => (Ok a, s')
       | (Raise _, s') => h s'
       end.

Global Instance M_ret {S} : MRet (M S) := λ A, ret.
Global Instance M_bind {S} : MBind (M S) := λ A B k m, bind m k.

(** [for x in xs: body x] *)
Fixpoint for_each {S A} (xs : list A) (body : A → M S unit) : M S unit :=
  match xs with
  | [] => ret tt
  | x :: xs' => body x;; for_each xs' body
  end.

Definition rbind {A B} (r : result A) (k : A → result B) : result B :=
  match r with
  | Ok a => k a
  | Raise e => Raise e
  end.

(** ** Elements and group values *)

(** An element of an object column: text, a Python int, or a missing
    value ([None] or NaN). *)
Inductive obj :=
  | OStr (s : string)
  | OInt (z : Z)
  | OMissing.

(** A value of a grouping column. *)
Inductive key :=
  | KInt (z : Z)
  | KStr (s : string).

(** The order in which pandas sorts group values: numbers, then text
    by code point. *)
Definition key_leb (a b : key) : bool :=
  match a, b with
  | KInt x, KInt y => bool_decide (x ≤ y)
  | KInt _, KStr _ => true
  | KStr _, KInt _ => false
  | KStr x, KStr y => String.leb x y
  end.

Definition key_le (a b : key) : Prop := key_leb a b = true.

Global Instance key_eq_dec : EqDecision key.
Proof. solve_decision. Defined.

Global Instance obj_eq_dec : EqDecision obj.
Proof. solve_decision. Defined.

Global Instance key_le_dec : RelDecision key_le.
Proof. intros a b. unfold key_le. apply _. Defined.

(** ** An instance of float64 on which the definitions evaluate

    Exact fractions with the two infinities and NaN. It rounds nothing,
    which the laws of [Float64Laws] do not need. *)

Module ExactFloat.

Inductive xq :=
  | Fin (q : Q)
  | PInf
  | NInf
  | NaN.

Definition xq_isnan (x : xq) : bool :=
  match x with
  | NaN => true
  | _ => false
  end.

Definition xq_gt (x y : xq) : bool :=
  match x, y with
  | Fin p, Fin q => negb (Qle_bool p q)
  | PInf, Fin _ | PInf, NInf | Fin _, NInf => true
  | _, _ => false
  end.

Definition xq_eq (x y : xq) : bool :=
  match x, y with
  | Fin p, Fin q => Qeq_bool p q
  | PInf, PInf | NInf, NInf => true
  | _, _ => false
  end.

Definition xq_neg (x : xq) : xq :=
  match x with
  | Fin q => Fin (Qopp q)
  | PInf => NInf
  | NInf => PInf
  | NaN => NaN
  end.

Definition xq_add (x y : xq) : xq :=
  match x, y with
  | NaN, _ | _, NaN => NaN
  | Fin p, Fin q => Fin (Qplus p q)
  | PInf, NInf | NInf, PInf => NaN
  | PInf, _ | _, PInf => PInf
  | NInf, _ | _, NInf => NInf
  end.

Definition xq_sub (x y : xq) : xq := xq_add x (xq_neg y).

Definition xq_div (x y : xq) : xq :=
  match x, y with
  | NaN, _ | _, NaN => NaN
  | Fin p, Fin q =>
      if Qeq_bool q 0 then
        if Qeq_bool p 0 then NaN else if Qle_bool 0 p then PInf else NInf
      else Fin (Qdiv p q)
  | Fin _, _ => Fin 0
  | PInf, Fin q => if Qle_bool 0 q then PInf else NInf
  | NInf, Fin q => if Qle_bool 0 q then NInf else PInf
  | _, _ => NaN
  end.

Definition xq_trunc (x : xq) : option Z :=
  match x with
  | Fin q => Some (Z.quot (Qnum q) (Z.pos (Qden q)))
  | _ => None
  end.

Definition digit (a : Ascii.ascii) : option Z :=
  let n := Z.of_nat (Ascii.nat_of_ascii a) in
  if bool_decide (48 ≤ n ≤ 57) then Some (n - 48) else None.

Fixpoint parse_digits (acc : Z) (s : string) : option Z :=
  match s with
  | EmptyString => Some acc
  | String a s' =>
      match digit a with
      | Some d => parse_digits (10 * acc + d) s'
      | None => None
      end
  end.

(** Decimal integers only: enough to evaluate examples. *)
Definition parse_decimal (s : string) : option (Z + xq) :=
  match s with
  | EmptyString => None
  | _ => inl <$> parse_digits 0 s
  end.

#[export] Instance float64 : Float64 xq := {|
  nan := NaN;
  isnan := xq_isnan;
  of_Z := λ z, Fin (inject_Z z);
  fgt := xq_gt;
  feq := xq_eq;
  fadd := xq_add;
  fsub := xq_sub;
  fdiv := xq_div;
  ftrunc := xq_trunc;
  f0_05 := Fin (1 # 20);
  parse_numeric := parse_decimal
|}.

End ExactFloat.

(** ** Columns *)

Section Model.
Context {F : Type} {float_ops : Float64 F}.

Inductive Series :=
  | SInt (l : list Z)
  | SFloat (l : list F)
  | SObj (l : list obj).

(** A numpy scalar. *)
Inductive num :=
  | NI (z : Z)
  | NF (x : F).

(** One element of a column. *)
Inductive cell :=
  | CNum (n : num)
  | CObj (o : obj).

Definition series_len (s : Series) : nat :=
  match s with
  | SInt l => length l
  | SFloat l => length l
  | SObj l => length l
  end.

Definition series_at (s : Series) (i : nat) : option cell :=
  match s with
  | SInt l => (λ z, CNum (NI z)) <$> l !! i
  | SFloat l => (λ x, CNum (NF x)) <$> l !! i
  | SObj l => CObj <$> l !! i
  end.

Definition num_F (n : num) : F :=
  match n with
  | NI z => of_Z z
  | NF x => x
  end.

(** int64 arithmetic wraps around. *)
Definition wrap64 (z : Z) : Z := (z + 2 ^ 63) mod 2 ^ 64 - 2 ^ 63.

(** [x > 0] on a scalar. *)
Definition num_gt0 (n : num) : bool :=
  match n with
  | NI z => bool_decide (0 < z)
  | NF x => fgt x (of_Z 0)
  end.

(** True division [a / b]: both operands as float64. *)
Definition num_truediv (a b : num) : F := fdiv (num_F a) (num_F b).

(** [a - b]: int64 when both are, float64 otherwise. *)
Definition num_sub (a b : num) : num :=
  match a, b with
  | NI x, NI y => NI (wrap64 (x - y))
  | _, _ => NF (fsub (num_F a) (num_F b))
  end.

(** The float64 view of a numeric column; an object column has none. *)
Definition floats (s : Series) : result (list F) :=
  match s with
  | SInt l => Ok (of_Z <$> l)
  | SFloat l => Ok l
  | SObj _ => Raise TypeError
  end.

(** [pd.to_numeric(_, errors="coerce")] on one object. *)
Definition coerce (o : obj) : num :=
  match o with
  | OStr s => match parse_numeric s with
              | Some (inl z) => NI z
              | Some (inr x) => NF x
              | None => NF nan
              end
  | OInt z => NI z
  | OMissing => NF nan
  end.

Definition num_int (n : num) : option Z :=
  match n with
  | NI z => Some z
  | NF _ => None
  end.

(** [pd.to_numeric(s, errors="coerce")]: numeric columns are returned as
    they are; an object column becomes int64 when every element reads as
    an integer and float64 otherwise. *)
Definition to_numeric (s : Series) : Series :=
  match s with
  | SInt l => SInt l
  | SFloat l => SFloat l
  | SObj l =>
      let ns := coerce <$> l in
      match mapM num_int ns with
      | Some zs => SInt zs
      | None => SFloat (num_F <$> ns)
      end
  end.

(** [s > 0] *)
Definition series_gt0 (s : Series) : result (list bool) :=
  match s with
  | SInt l => Ok ((λ z, num_gt0 (NI z)) <$> l)
  | SFloat l => Ok ((λ x, num_gt0 (NF x)) <$> l)
  | SObj _ => Raise TypeError
  end.

(** [mask.astype(int)] *)
Definition astype_int (m : list bool) : Series :=
  SInt ((λ b : bool, if b then 1 else 0) <$> m).

(** [s == 0] *)
Definition series_eq0 (s : Series) : list bool :=
  match s with
  | SInt l => (λ z, bool_decide (z = 0)) <$> l
  | SFloat l => (λ x, feq x (of_Z 0)) <$> l
  | SObj l => (λ o, match o with OInt 0 => true | _ => false end) <$> l
  end.

(** [a / b] on columns. *)
Definition series_truediv (a b : Series) : result Series :=
  rbind (floats a) (λ xs,
  rbind (floats b) (λ ys,
  Ok (SFloat (zip_with fdiv xs ys)))).

(** [a - b] on columns. *)
Definition series_sub (a b : Series) : result Series :=
  match a, b with
  | SInt xs, SInt ys => Ok (SInt (zip_with (λ x y, wrap64 (x - y)) xs ys))
  | _, _ =>
      rbind (floats a) (λ xs,
      rbind (floats b) (λ ys,
      Ok (SFloat (zip_with fsub xs ys))))
  end.

(** [np.where(cond, xs, np.nan)] *)
Definition np_where_nan (cond : list bool) (xs : list F) : list F :=
  zip_with (λ (c : bool) x, if c then x else nan) cond xs.

(** [s[mask] = np.nan]: an int64 column that receives a NaN becomes
    float64. *)
Definition mask_set_nan (mask : list bool) (s : Series) : Series :=
  match s with
  | SFloat l => SFloat (zip_with (λ (m : bool) x, if m then nan else x) mask l)
  | SInt l =>
      if existsb id mask
      then SFloat (zip_with (λ (m : bool) z, if m then nan else of_Z z) mask l)
      else SInt l
  | SObj l => SObj (zip_with (λ (m : bool) o, if m then OMissing else o) mask l)
  end.

(** ** Data frames *)

Record DataFrame := mkDF {
  index : list Z;
  columns : list (string * Series)
}.

Definition names (df : DataFrame) : list string := fst <$> columns df.

Fixpoint assoc (c : string) (cols : list (string * Series)) : option Series :=
  match cols with
  | [] => None
  | (c', s) :: rest => if decide (c' = c) then Some s else assoc c rest
  end.

(** [cols[c] = s]: in place when the name exists, appended otherwise. *)
Fixpoint assoc_set (c : string) (s : Series) (cols : list (string * Series))
  : list (string * Series) :=
  match cols with
  | [] => [(c, s)]
  | (c', s') :: rest =>
      if decide (c' = c) then (c, s) :: rest else (c', s') :: assoc_set c s rest
  end.

(** [df[c]] *)
Definition df_get (df : DataFrame) (c : string) : result Series :=
  match assoc c (columns df) with
  | Some s => Ok s
  | None => Raise (KeyError c)
  end.

(** [df[c] = s] *)
Definition df_set (df : DataFrame) (c : string) (s : Series) : DataFrame :=
  mkDF (index df) (assoc_set c s (columns df)).

Definition nrows (df : DataFrame) : nat := length (index df).

(** What pandas guarantees of every data frame: the column names are
    distinct and every column has one element per row. *)
Definition wf_df (df : DataFrame) : Prop :=
  NoDup (names df) ∧
  Forall (λ cs, series_len cs.2 = nrows df) (columns df).

Global Instance wf_df_dec (df : DataFrame) : Decision (wf_df df).
Proof. unfold wf_df. apply _. Defined.

(** The element of column [c] in row [i]. *)
Definition df_cell (df : DataFrame) (c : string) (i : nat) : option cell :=
  s ← assoc c (columns df); series_at s i.

(** ** The store *)

Local Abbreviation loc := positive.
Local Abbreviation heap := (gmap positive DataFrame).


(** [df.copy()]: a new object with the same (deep-copied) content. *)
Definition df_copy (l : loc) : M heap loc :=
  λ h, match h !! l with
       | Some df => let l' := fresh (dom h) in (Ok l', <[l' := df]> h)
       | None => (Raise TypeError, h)
       end.

Definition deref (l : loc) : M heap DataFrame :=
  λ h, match h !! l with
       | Some df => (Ok df, h)
       | None => (Raise TypeError, h)
       end.

(** [df[c]] through a reference. *)
Definition getitem (l : loc) (c : string) : M heap Series :=
  bind (deref l) (λ df, lift (df_get df c)).

(** [df[c] = s] through a reference: the object is updated in place. *)
Definition setitem (l : loc) (c : string) (s : Series) : M heap unit :=
  λ h, match h !! l with
       | Some df => (Ok tt, <[l := df_set df c s]> h)
       | None => (Raise TypeError, h)
       end.

(** [df.columns] *)
Definition df_columns (l : loc) : M heap (list string) :=
  bind (deref l) (λ df, ret (names df)).

(** [df.loc[mask, c] = np.nan] *)
Definition loc_set_nan (l : loc) (mask : list bool) (c : string) : M heap unit :=
  bind (getitem l c) (λ s, setitem l c (mask_set_nan mask s)).

(** ** [prepare_kpis] *)

Definition prepare_kpis (df0 : loc) : M heap loc :=
  df ← df_copy df0;
  for_each ["TotalClaims"; "TotalPremium"] (λ c,
    cols ← df_columns df;
    if bool_decide (c ∈ cols)
    then s ← getitem df c; setitem df c (to_numeric s)
    else ret tt);;
  tc ← getitem df "TotalClaims";
  m ← lift (series_gt0 tc);
  setitem df "HasClaim" (astype_int m);;
  tc ← getitem df "TotalClaims";
  hc ← getitem df "HasClaim";
  q ← lift (series_truediv tc hc);
  setitem df "ClaimSeverity" q;;
  hc ← getitem df "HasClaim";
  loc_set_nan df (series_eq0 hc) "ClaimSeverity";;
  tp ← getitem df "TotalPremium";
  cond ← lift (series_gt0 tp);
  tc ← getitem df "TotalClaims";
  tp ← getitem df "TotalPremium";
  r ← lift (rbind (series_truediv tc tp) floats);
  setitem df "LossRatio" (SFloat (np_where_nan cond r));;
  tp ← getitem df "TotalPremium";
  tc ← getitem df "TotalClaims";
  mg ← lift (series_sub tp tc);
  setitem df "Margin" mg;;
  ret df.

(** ** Row selection and missing values *)

(** The elements of [l] where the mask holds. *)
Fixpoint mask_filter {A} (mask : list bool) (l : list A) : list A :=
  match mask, l with
  | b :: mask', x :: l' =>
      if b then x :: mask_filter mask' l' else mask_filter mask' l'
  | _, _ => []
  end.

(** [s[mask]] *)
Definition series_filter (mask : list bool) (s : Series) : Series :=
  match s with
  | SInt l => SInt (mask_filter mask l)
  | SFloat l => SFloat (mask_filter mask l)
  | SObj l => SObj (mask_filter mask l)
  end.

(** [df[mask]] *)
Definition df_filter (mask : list bool) (df : DataFrame) : DataFrame :=
  mkDF (mask_filter mask (index df))
       ((λ cs, (cs.1, series_filter mask cs.2)) <$> columns df).

(** [s.dropna()] *)
Definition dropna (s : Series) : Series :=
  match s with
  | SInt l => SInt l
  | SFloat l => SFloat (filter (λ x, isnan x = false) l)
  | SObj l => SObj (filter (λ o, o ≠ OMissing) l)
  end.

(** ** Comparing with group values *)

(** [x == k] for an element [x] and a group value [k]. *)
Definition obj_eq_key (o : obj) (k : key) : bool :=
  match o, k with
  | OStr s, KStr t => bool_decide (s = t)
  | OInt z, KInt w => bool_decide (z = w)
  | _, _ => false
  end.

Definition float_eq_key (x : F) (k : key) : bool :=
  match k with
  | KInt w => feq x (of_Z w)
  | KStr _ => false
  end.

(** [s == k] *)
Definition series_eq (s : Series) (k : key) : list bool :=
  match s with
  | SInt l => (λ z, obj_eq_key (OInt z) k) <$> l
  | SFloat l => (λ x, float_eq_key x k) <$> l
  | SObj l => (λ o, obj_eq_key o k) <$> l
  end.

(** [s.isin(ks)] *)
Definition series_isin (s : Series) (ks : list key) : list bool :=
  match s with
  | SInt l => (λ z, existsb (obj_eq_key (OInt z)) ks) <$> l
  | SFloat l => (λ x, existsb (float_eq_key x) ks) <$> l
  | SObj l => (λ o, existsb (obj_eq_key o) ks) <$> l
  end.

Definition obj_label (o : obj) : option key :=
  match o with
  | OStr s => Some (KStr s)
  | OInt z => Some (KInt z)
  | OMissing => None
  end.

(** The group value of every row of a grouping column; [None] for a
    missing value. *)
Definition labels (s : Series) : result (list (option key)) :=
  match s with
  | SInt l => Ok ((λ z, Some (KInt z)) <$> l)
  | SObj l => Ok (obj_label <$> l)
  | SFloat _ => Raise NotModelled
  end.

(** The groups of [groupby(col)] (default [sort=True], [dropna=True]):
    the distinct non-missing values, in sorted order. *)
Definition group_keys (labs : list (option key)) : list key :=
  merge_sort key_le (remove_dups (omap id labs)).

(** The rows of one group. *)
Definition group_mask (labs : list (option key)) (k : key) : list bool :=
  (λ o, bool_decide (o = Some k)) <$> labs.

(** ["count"]: the number of non-missing elements. *)
Definition series_count (s : Series) : Z :=
  Z.of_nat (series_len (dropna s)).

Definition sumZ (l : list Z) : Z := foldr Z.add 0 l.

(** ["sum"], missing values skipped. *)
Definition series_sum (s : Series) : result num :=
  match dropna s with
  | SInt l => Ok (NI (wrap64 (sumZ l)))
  | SFloat l => Ok (NF (foldl fadd (of_Z 0) l))
  | SObj _ => Raise TypeError
  end.

(** ["nunique"]: the number of distinct non-missing elements. *)
Definition series_nunique (s : Series) : result Z :=
  rbind (labels s) (λ labs,
  Ok (Z.of_nat (length (remove_dups (omap id labs))))).

(** ["mean"], missing values skipped; NaN when nothing is left. *)
Definition series_mean (s : Series) : result F :=
  rbind (floats (dropna s)) (λ xs,
  Ok (match xs with
      | [] => nan
      | _ => fdiv (foldl fadd (of_Z 0) xs) (of_Z (Z.of_nat (length xs)))
      end)).

(** [.agg] takes its columns from the table without the grouping
    column. *)
Definition agg_select (df : DataFrame) (group_col c : string) : result Series :=
  if decide (c = group_col) then Raise (KeyError c) else df_get df c.

(** One aggregation [(column, function)] over the rows of one group. *)
Definition agg_group {A} (df : DataFrame) (group_col : string)
    (mask : list bool) (c : string) (f : Series → result A) : result A :=
  rbind (agg_select df group_col c) (λ s, f (series_filter mask s)).

(** ** [agg_by_group] *)

Record GroupRow := mkGroupRow {
  group : key;
  n_policies : Z;
  n_claims : num;
  mean_claim_severity : F;
  mean_lossratio : F;
  mean_margin : F;
  claim_freq : F
}.

Fixpoint mapR {A B} (f : A → result B) (l : list A) : result (list B) :=
  match l with
  | [] => Ok []
  | x :: l' => rbind (f x) (λ y, rbind (mapR f l') (λ ys, Ok (y :: ys)))
  end.

(** [sort_values("n_policies", ascending=False)]. Which of two rows with
    the same count comes first is the sorting routine's choice; here it
    is the one that came first before. *)
Definition by_n_policies_desc (r1 r2 : GroupRow) : Prop :=
  n_policies r2 ≤ n_policies r1.

Global Instance by_n_policies_desc_dec : RelDecision by_n_policies_desc.
Proof. intros r1 r2. unfold by_n_policies_desc. apply _. Defined.

(** The named aggregations of [.agg(...)] over one group, and
    [claim_freq]. *)
Definition agg_row (df : DataFrame) (group_col : string)
    (labs : list (option key)) (k : key) : result GroupRow :=
  let m := group_mask labs k in
  rbind (if bool_decide ("PolicyID" ∈ names df)
         then agg_group df group_col m "PolicyID" series_nunique
         else agg_group df group_col m "HasClaim" (λ s, Ok (series_count s)))
        (λ np,
  rbind (agg_group df group_col m "HasClaim" series_sum) (λ nc,
  rbind (agg_group df group_col m "ClaimSeverity" series_mean) (λ cs,
  rbind (agg_group df group_col m "LossRatio" series_mean) (λ lr,
  rbind (agg_group df group_col m "Margin" series_mean) (λ mg,
  Ok (mkGroupRow k np nc cs lr mg (num_truediv nc (NI np)))))))).

Definition agg_by_group (df : DataFrame) (group_col : string) (min_count : Z)
  : result (list GroupRow) :=
  rbind (df_get df group_col) (λ gc,
  rbind (labels gc) (λ labs,
  rbind (mapR (agg_select df group_col)
           [if bool_decide ("PolicyID" ∈ names df) then "PolicyID" else "HasClaim";
            "HasClaim"; "ClaimSeverity"; "LossRatio"; "Margin"]) (λ _,
  rbind (mapR (agg_row df group_col labs) (group_keys labs)) (λ g,
  let g := merge_sort by_n_policies_desc g in
  Ok (filter (λ r, min_count ≤ n_policies r) g))))).

(** ** Results of the tests: Python dictionaries *)

Inductive pyval :=
  | PStr (s : string)
  | PInt (z : Z)
  | PFloat (x : F)
  | PKeys (ks : list key)
  | PInts (zs : list Z)
  | PTable (t : list (list num))
  | PFloatTable (t : list (list F))
  | PSeries (kv : list (key * num)).

Definition pydict := list (string * pyval).

Fixpoint dict_get (d : pydict) (k : string) : option pyval :=
  match d with
  | [] => None
  | (k', v) :: d' => if decide (k' = k) then Some v else dict_get d' k
  end.

(** ** [chi2_test_frequency] *)

Record ChiRow := mkChiRow {
  chi_group : key;
  chi_n_policies : Z;
  chi_n_claims : num
}.

Section Tests.
(** [scipy.stats.chi2_contingency]: statistic, p-value, degrees of
    freedom and expected frequencies. *)
Variable chi2_contingency : list (list num) → F * F * Z * list (list F).
(** [statsmodels proportions_ztest]: statistic and p-value. *)
Variable proportions_ztest : list Z → list Z → F * F.

(** The two aggregations of [chi2_test_frequency] over one group. *)
Definition chi_row (df : DataFrame) (group_col : string)
    (labs : list (option key)) (k : key) : result ChiRow :=
  let m := group_mask labs k in
  rbind (agg_group df group_col m "HasClaim" (λ s, Ok (series_count s))) (λ np,
  rbind (agg_group df group_col m "HasClaim" series_sum) (λ nc,
  Ok (mkChiRow k np nc))).

Definition chi2_test_frequency (df : DataFrame) (group_col : string)
    (min_count : Z) : result pydict :=
  rbind (df_get df group_col) (λ gc,
  rbind (labels gc) (λ labs,
  rbind (mapR (agg_select df group_col) ["HasClaim"; "HasClaim"]) (λ _,
  rbind (mapR (chi_row df group_col labs) (group_keys labs)) (λ agg,
  let agg := filter (λ r, min_count ≤ chi_n_policies r) agg in
  if bool_decide (length agg < 2)%nat then
    Ok [("error", PStr "not enough groups with min_count");
        ("groups", PKeys (chi_group <$> agg))]
  else
    let contingency :=
      (λ r, [num_sub (NI (chi_n_policies r)) (chi_n_claims r); chi_n_claims r])
        <$> agg in
    let '(chi2, p, dof, expected) := chi2_contingency contingency in
    Ok [("statistic", PFloat chi2);
        ("pvalue", PFloat p);
        ("dof", PInt dof);
        ("expected", PFloatTable expected);
        ("groups_used", PKeys (chi_group <$> agg));
        ("contingency_table", PTable contingency)])))).

(** ** [proportion_ztest_pair] *)

(** [int(x)] on a numpy scalar. *)
Definition num_to_int (n : num) : result Z :=
  match n with
  | NI z => Ok z
  | NF x => match ftrunc x with
            | Some z => Ok z
            | None => Raise ValueError
            end
  end.

(** [sub.groupby(col)[c].f()]: one value per group, in group order. *)
Definition groupby_agg {A} (df : DataFrame) (group_col c : string)
    (f : Series → result A) : result (list (key * A)) :=
  rbind (df_get df group_col) (λ gc,
  rbind (labels gc) (λ labs,
  rbind (df_get df c) (λ s,
  mapR (λ k, rbind (f (series_filter (group_mask labs k) s))
                   (λ v, Ok (k, v)))
       (group_keys labs)))).

Definition proportion_ztest_pair (df : DataFrame) (group_col : string)
    (group_a group_b : key) : result pydict :=
  rbind (df_get df group_col) (λ gc,
  let sub := df_filter (series_isin gc [group_a; group_b]) df in
  rbind (groupby_agg sub group_col "HasClaim" series_sum) (λ counts,
  rbind (groupby_agg sub group_col "HasClaim" (λ s, Ok (NI (series_count s))))
        (λ nobs,
  match counts, nobs with
  | [c0; c1], [n0; n1] =>
      rbind (num_to_int c0.2) (λ c0',
      rbind (num_to_int c1.2) (λ c1',
      rbind (num_to_int n0.2) (λ n0',
      rbind (num_to_int n1.2) (λ n1',
      let count := [c0'; c1'] in
      let nobs := [n0'; n1'] in
      let '(stat, pval) := proportions_ztest count nobs in
      Ok [("statistic", PFloat stat);
          ("pvalue", PFloat pval);
          ("count", PInts count);
          ("nobs", PInts nobs)]))))
  | _, _ =>
      Ok [("error", PStr "groups not found or insufficient data");
          ("counts", PSeries counts);
          ("nobs", PSeries nobs)]
  end))).

End Tests.

(** ** [ttest_or_mannwhitney] *)

(** The calls into [scipy.stats], as the log records them. *)
Inductive call :=
  | CallSample (n : Z) (x : Series)
  | CallShapiro (x : Series)
  | CallTtestInd (a b : Series) (equal_var : bool) (nan_policy : string)
  | CallMannWhitneyU (a b : Series) (alternative : string).

Definition log := list call.

Definition emit (c : call) : M log unit := λ l, (Ok tt, (l ++ [c])%list).

Section AdaptiveTest.
(** [Series.sample(n)]: a random subsample. *)
Variable sample : Z → Series → result Series.
(** [scipy.stats.shapiro], of which the code reads the p-value; it may
    raise. *)
Variable shapiro : Series → result F.
(** [scipy.stats.ttest_ind] and [scipy.stats.mannwhitneyu]: statistic
    and p-value. *)
Variable ttest_ind : Series → Series → bool → string → F * F.
Variable mannwhitneyu : Series → Series → string → F * F.

Definition do_sample (n : Z) (x : Series) : M log Series :=
  emit (CallSample n x);; lift (sample n x).

Definition do_shapiro (x : Series) : M log F :=
  emit (CallShapiro x);; lift (shapiro x).

Definition do_ttest_ind (a b : Series) (equal_var : bool) (nan_policy : string)
  : M log (F * F) :=
  emit (CallTtestInd a b equal_var nan_policy);;
  mret (ttest_ind a b equal_var nan_policy).

Definition do_mannwhitneyu (a b : Series) (alternative : string)
  : M log (F * F) :=
  emit (CallMannWhitneyU a b alternative);;
  mret (mannwhitneyu a b alternative).

Definition len (s : Series) : Z := Z.of_nat (series_len s).

(** The [try] block: Shapiro's test on each sample, on a subsample of
    5000 when the sample is larger; any exception inside gives
    [normal = False]. *)
Definition normality_check (a b : Series) : M log bool :=
  try_except
    (xa ← (if bool_decide (5000 < len a) then do_sample 5000 a else mret a);
     sh_a ← do_shapiro xa;
     xb ← (if bool_decide (5000 < len b) then do_sample 5000 b else mret b);
     sh_b ← do_shapiro xb;
     mret (fgt sh_a f0_05 && fgt sh_b f0_05))
    (mret false).

(** The p-value of the normality check on one sample, or the exception
    raised on the way. *)
Definition shapiro_pvalue (x : Series) : result F :=
  rbind (if bool_decide (5000 < len x) then sample 5000 x else Ok x) shapiro.

(** "Both normality p-values exceed 0.05". *)
Definition both_normal (a b : Series) : bool :=
  match shapiro_pvalue a, shapiro_pvalue b with
  | Ok pa, Ok pb => fgt pa f0_05 && fgt pb f0_05
  | _, _ => false
  end.

(** The body of [ttest_or_mannwhitney] once the two samples [a] and [b]
    are extracted: the size guard, the choice of the test, the result. *)
Definition compare_samples (a b : Series) : M log pydict :=
  let na := len a in
  let nb := len b in
  if bool_decide (na < 5) || bool_decide (nb < 5) then
    mret [("error", PStr "too few observations");
          ("n_a", PInt na); ("n_b", PInt nb)]
  else
    normal ← normality_check a b;
    '(stat, p, test) ←
      (if normal && bool_decide (30 ≤ na) && bool_decide (30 ≤ nb) then
         '(stat, p) ← do_ttest_ind a b false "omit";
         mret (stat, p, "t-test (Welch)")
       else
         '(stat, p) ← do_mannwhitneyu a b "two-sided";
         mret (stat, p, "Mann-Whitney U"));
    mret [("test", PStr test);
          ("statistic", PFloat stat);
          ("pvalue", PFloat p);
          ("n_a", PInt na);
          ("n_b", PInt nb)].

Definition ttest_or_mannwhitney (df : DataFrame) (group_col : string)
    (group_a group_b : key) (numeric_col : string) : M log pydict :=
  gc ← lift (df_get df group_col);
  let sub := df_filter (series_isin gc [group_a; group_b]) df in
  gca ← lift (df_get sub group_col);
  ca ← lift (df_get (df_filter (series_eq gca group_a) sub) numeric_col);
  let a := dropna ca in
  gcb ← lift (df_get sub group_col);
  cb ← lift (df_get (df_filter (series_eq gcb group_b) sub) numeric_col);
  let b := dropna cb in
  compare_samples a b.

End AdaptiveTest.

(** ** Views used to state the properties *)

(** The scalars of a numeric column. *)
Definition nums (s : Series) : list num :=
  match s with
  | SInt l => NI <$> l
  | SFloat l => NF <$> l
  | SObj _ => []
  end.

Definition is_numeric (s : Series) : Prop :=
  match s with
  | SObj _ => False
  | _ => True
  end.

(** The table [prepare_kpis] builds from a table whose claims and
    premium columns are [s1] and [s2], in closed form; that the function
    builds this table is [prepare_kpis_run] below. *)
Definition kpi_frame (df : DataFrame) (s1 s2 : Series) : DataFrame :=
  let tc := to_numeric s1 in
  let tp := to_numeric s2 in
  let hc := (λ n, if num_gt0 n then 1 else 0) <$> nums tc in
  let cs := zip_with (λ t h, if bool_decide (h = 0) then nan
                             else fdiv (num_F t) (of_Z h)) (nums tc) hc in
  let lr := zip_with (λ p t, if num_gt0 p then num_truediv t p else nan)
              (nums tp) (nums tc) in
  let mg := match tp, tc with
            | SInt ps, SInt ts => SInt (zip_with (λ p t, wrap64 (p - t)) ps ts)
            | _, _ => SFloat (zip_with (λ p t, fsub (num_F p) (num_F t))
                                (nums tp) (nums tc))
            end in
  df_set (df_set (df_set (df_set (df_set (df_set df
    "TotalClaims" tc) "TotalPremium" tp) "HasClaim" (SInt hc))
    "ClaimSeverity" (SFloat cs)) "LossRatio" (SFloat lr)) "Margin" mg.

(** What numeric coercion makes of one element. *)
Definition cell_coerce (c : cell) : num :=
  match c with
  | CNum n => n
  | CObj o => coerce o
  end.

(** The four derived columns, and all the columns [prepare_kpis]
    assigns. *)
Definition derived_names : list string :=
  ["HasClaim"; "ClaimSeverity"; "LossRatio"; "Margin"].

Definition kpi_names : list string :=
  "TotalClaims" :: "TotalPremium" :: derived_names.

(** "Every column of [df] other than those named in [except] is in [df']
    as it was." *)
Definition columns_kept (except : list string) (df df' : DataFrame) : Prop :=
  ∀ c, c ∈ names df → c ∉ except → df_get df' c = df_get df c.

(** [m] changes no object of the store other than [l']. *)
Definition writes_only {A} (l' : loc) (m : M heap A) : Prop :=
  ∀ h r h', m h = (r, h') → ∀ l0, l0 ≠ l' → h' !! l0 = h !! l0.

(** A table as [prepare_kpis] leaves it: the four derived columns with
    their dtypes. *)
Definition kpi_derived (df : DataFrame) : Prop :=
  ∃ hc cs lr mg,
    df_get df "HasClaim" = Ok (SInt hc) ∧
    df_get df "ClaimSeverity" = Ok (SFloat cs) ∧
    df_get df "LossRatio" = Ok (SFloat lr) ∧
    df_get df "Margin" = Ok mg ∧ is_numeric mg.

(** Column [c] holds group values: it is int64 or object. *)
Definition label_column (df : DataFrame) (c : string) : Prop :=
  ∃ s labs, df_get df c = Ok s ∧ labels s = Ok labs.

(** The number of rows whose group value is [k]. *)
Definition n_rows (labs : list (option key)) (k : key) : Z :=
  Z.of_nat (length (filter (λ o, o = Some k) labs)).

(** The number of rows of group [k] whose HasClaim is [v]. *)
Definition n_with (labs : list (option key)) (hc : list Z) (k : key) (v : Z) : Z :=
  Z.of_nat (length (filter (λ p, p.1 = Some k ∧ p.2 = v) (zip labs hc))).

(** The sample of group [k]: the defined values of the numeric column
    [nc] in the rows where the grouping column [gc] is [k], among the
    rows of the two groups. *)
Definition extract_sample (gc nc : Series) (group_a group_b k : key) : Series :=
  let m := series_isin gc [group_a; group_b] in
  dropna (series_filter (series_eq (series_filter m gc) k) (series_filter m nc)).

Definition is_normality_call (c : call) : Prop :=
  match c with
  | CallSample _ _ | CallShapiro _ => True
  | _ => False
  end.

(** The groups of a column in the order in which its rows first show
    them. *)
Fixpoint encounter_order_from (seen : list key) (labs : list (option key))
  : list key :=
  match labs with
  | [] => []
  | None :: rest => encounter_order_from seen rest
  | Some k :: rest =>
      if decide (k ∈ seen) then encounter_order_from seen rest
      else k :: encounter_order_from (k :: seen) rest
  end.

Definition encounter_order (labs : list (option key)) : list key :=
  encounter_order_from [] labs.

(** "The dictionary [d] has the claim counts and the observation counts
    of the groups in the order in which the rows show them." *)
Definition counts_in_encounter_order (labs : list (option key)) (hc : list Z)
    (d : pydict) : Prop :=
  dict_get d "count"
    = Some (PInts ((λ k, n_with labs hc k 1) <$> encounter_order labs)) ∧
  dict_get d "nobs" = Some (PInts (n_rows labs <$> encounter_order labs)).

(** ** Tables and routines for the examples *)

(** Text and gaps in the claims column. *)
Definition policies_df : DataFrame :=
  mkDF [0; 1; 2; 3]
    [("Region", SObj [OStr "B"; OStr "A"; OStr "B"; OMissing]);
     ("TotalClaims", SObj [OStr "10"; OStr "x"; OInt 0; OMissing]);
     ("TotalPremium", SInt [5; 0; 7; 9])].

(** A table that already has a column called Margin. *)
Definition margin_df : DataFrame :=
  mkDF [0]
    [("TotalClaims", SInt [0]); ("TotalPremium", SInt [100]);
     ("Margin", SInt [7])].

(** Three regions with 2, 3 and 1 rows. *)
Definition regions_df : DataFrame :=
  mkDF [0; 1; 2; 3; 4; 5]
    [("Region", SObj [OStr "A"; OStr "A"; OStr "B"; OStr "B"; OStr "B"; OStr "C"]);
     ("HasClaim", SInt [1; 0; 0; 1; 1; 0])].

(** Group B comes first in the rows, group A second. *)
Definition b_first_df : DataFrame :=
  mkDF [0; 1; 2]
    [("Region", SObj [OStr "B"; OStr "A"; OStr "B"]);
     ("HasClaim", SInt [1; 0; 1])].

(** Group A: 10 claims in 100 rows; group B: 20 claims in 100 rows. *)
Definition hundreds_df : DataFrame :=
  mkDF (Z.of_nat <$> seq 0 200)
    [("Region", SObj (replicate 100 (OStr "A") ++ replicate 100 (OStr "B")));
     ("HasClaim", SInt (replicate 10 1 ++ replicate 90 0 ++
                        replicate 20 1 ++ replicate 80 0))].

(** Two groups of [n] rows each with a numeric column. *)
Definition two_groups_region (n : nat) : Series :=
  SObj (replicate n (OStr "A") ++ replicate n (OStr "B")).

Definition two_groups_margin (n : nat) : Series :=
  SFloat (of_Z <$> (Z.of_nat <$> seq 0 (n + n))).

Definition two_groups_df (n : nat) : DataFrame :=
  mkDF (Z.of_nat <$> seq 0 (n + n))
    [("Region", two_groups_region n); ("Margin", two_groups_margin n)].

Definition sample_all : Z → Series → result Series := λ _ x, Ok x.
Definition shapiro_half : Series → result F :=
  λ _, Ok (fdiv (of_Z 1) (of_Z 2)).
Definition ttest_zero : Series → Series → bool → string → F * F :=
  λ _ _ _ _, (of_Z 0, of_Z 1).
Definition mannwhitneyu_zero : Series → Series → string → F * F :=
  λ _ _ _, (of_Z 0, of_Z 1).
Definition chi2_zero : list (list num) → F * F * Z * list (list F) :=
  λ _, (of_Z 0, of_Z 1, 1, []).
Definition ztest_zero : list Z → list Z → F * F := λ _ _, (of_Z 0, of_Z 1).

(** ** [kruskal_test_numeric] *)

Section Kruskal.
(** [scipy.stats.kruskal]: statistic and p-value; it may raise. *)
Variable kruskal : list Series → result (F * F).

(** The loop over [df.groupby(group_col)], with its two accumulators
    [groups] and [labels] (here [found]). *)
Fixpoint kruskal_collect (df : DataFrame) (labs : list (option key))
    (numeric_col : string) (min_count : Z) (todo : list key)
    (groups : list Series) (found : list key)
  : result (list Series * list key) :=
  match todo with
  | [] => Ok (groups, found)
  | name :: todo =>
      let grp := df_filter (group_mask labs name) df in
      rbind (df_get grp numeric_col) (λ c,
      let arr := dropna c in
      if bool_decide (min_count ≤ len arr)
      then kruskal_collect df labs numeric_col min_count todo
             (groups ++ [arr])%list (found ++ [name])%list
      else kruskal_collect df labs numeric_col min_count todo groups found)
  end.

Definition kruskal_test_numeric (df : DataFrame) (group_col numeric_col : string)
    (min_count : Z) : result pydict :=
  rbind (df_get df group_col) (λ gc,
  rbind (labels gc) (λ labs,
  rbind (kruskal_collect df labs numeric_col min_count (group_keys labs) [] [])
        (λ '(groups, found),
  if bool_decide (length groups < 2)%nat then
    Ok [("error", PStr "not enough groups with required observations");
        ("groups_found", PKeys found)]
  else
    rbind (kruskal groups) (λ '(stat, p),
    Ok [("statistic", PFloat stat);
        ("pvalue", PFloat p);
        ("groups_used", PKeys found)])))).

End Kruskal.

(** ** [pretty_interpret] *)

Section Interpret.
(** The two renderings of a float in the message: [f"{x:.4g}"] and
    [f"{x}"]. *)
Variable format_4g : F → string.
Variable format_repr : F → string.

(** [pvalue < alpha] is [alpha > pvalue]. *)
Definition pretty_interpret (pvalue alpha : F) : string :=
  if fgt alpha pvalue then
    "p = " ++ format_4g pvalue ++ " < " ++ format_repr alpha
      ++ " -> Reject H0 (statistically significant)"
  else
    "p = " ++ format_4g pvalue ++ " >= " ++ format_repr alpha
      ++ " -> Fail to reject H0 (not statistically significant)".

End Interpret.

(** ** Views of the samples *)

(** The defined values of column [nc] in the rows of group [k]. *)
Definition group_sample (labs : list (option key)) (nc : Series) (k : key)
  : Series :=
  dropna (series_filter (group_mask labs k) nc).

(** ** Further tables and routines for the examples *)

(** The three regions with all the KPI columns. *)
Definition regions_kpi_df : DataFrame :=
  mkDF [0; 1; 2; 3; 4; 5]
    [("Region", SObj [OStr "A"; OStr "A"; OStr "B"; OStr "B"; OStr "B"; OStr "C"]);
     ("HasClaim", SInt [1; 0; 0; 1; 1; 0]);
     ("ClaimSeverity", SFloat [of_Z 1; nan; nan; of_Z 2; of_Z 3; nan]);
     ("LossRatio", SFloat [of_Z 1; nan; nan; of_Z 2; of_Z 3; nan]);
     ("Margin", SInt [1; 2; 3; 4; 5; 6])].

Definition kruskal_zero : list Series → result (F * F) :=
  λ _, Ok (of_Z 0, of_Z 1).

(** * Properties

    ** The KPI table *)

Lemma bind_ok {S A B} (m : M S A) (k : A → M S B) s a s' :
  m s = (Ok a, s') → (m ≫= k) s = k a s'.
Proof. intros Hm. unfold mbind, M_bind, bind. by rewrite Hm. Qed.

Lemma assoc_set_eq c s cols : assoc c (assoc_set c s cols) = Some s.
Proof.
  induction cols as [|[c' s'] cols IH]; simpl.
  - by rewrite decide_True.
  - destruct (decide (c' = c)) as [->|Hne]; simpl.
    + by rewrite decide_True.
    + by rewrite decide_False.
Qed.

Lemma assoc_set_ne c c' s cols :
  c ≠ c' → assoc c' (assoc_set c s cols) = assoc c' cols.
Proof.
  intros Hne. induction cols as [|[c0 s0] cols IH]; simpl.
  - by rewrite decide_False.
  - destruct (decide (c0 = c)) as [->|Hne0]; simpl.
    + by rewrite !decide_False.
    + by rewrite IH.
Qed.

Lemma assoc_set_set c s1 s2 cols :
  assoc_set c s2 (assoc_set c s1 cols) = assoc_set c s2 cols.
Proof.
  induction cols as [|[c0 s0] cols IH]; simpl.
  - by rewrite decide_True.
  - destruct (decide (c0 = c)) as [->|Hne0]; simpl.
    + by rewrite decide_True.
    + by rewrite decide_False, IH.
Qed.

Lemma assoc_set_id c s cols :
  assoc c cols = Some s → assoc_set c s cols = cols.
Proof.
  induction cols as [|[c0 s0] cols IH]; simpl; [done|].
  destruct (decide (c0 = c)) as [->|Hne0]; [by intros [= ->]|].
  intros Hc. by rewrite IH.
Qed.

Lemma assoc_is_Some c cols : c ∈ cols.*1 ↔ is_Some (assoc c cols).
Proof.
  induction cols as [|[c0 s0] cols IH]; simpl.
  - rewrite elem_of_nil. split; [done|]. by intros [? ?].
  - rewrite elem_of_cons. destruct (decide (c0 = c)) as [->|Hne0].
    + split; [eauto|by left].
    + rewrite <- IH. split; [by intros [?|?]|by right].
Qed.

Lemma df_get_set_eq df c s : df_get (df_set df c s) c = Ok s.
Proof. unfold df_get, df_set; simpl. by rewrite assoc_set_eq. Qed.

Lemma df_get_set_ne df c c' s :
  c ≠ c' → df_get (df_set df c s) c' = df_get df c'.
Proof. intros Hne. unfold df_get, df_set; simpl. by rewrite assoc_set_ne. Qed.

Lemma getitem_insert (h : heap) l X c :
  getitem l c (<[l := X]> h) = (df_get X c, <[l := X]> h).
Proof. unfold getitem, deref, bind, lift. by rewrite lookup_insert_eq. Qed.

Lemma setitem_insert (h : heap) l X c s :
  setitem l c s (<[l := X]> h) = (Ok tt, <[l := df_set X c s]> h).
Proof. unfold setitem. by rewrite lookup_insert_eq, insert_insert_eq. Qed.

Lemma df_columns_insert (h : heap) l X :
  df_columns l (<[l := X]> h) = (Ok (names X), <[l := X]> h).
Proof. unfold df_columns, deref, bind, ret. by rewrite lookup_insert_eq. Qed.

Lemma to_numeric_numeric s : is_numeric (to_numeric s).
Proof. destruct s; simpl; try done. by destruct (mapM _ _). Qed.

Lemma to_numeric_id s : is_numeric s → to_numeric s = s.
Proof. by destruct s. Qed.

Lemma getitem_ok (h : heap) l X c s :
  df_get X c = Ok s → getitem l c (<[l := X]> h) = (Ok s, <[l := X]> h).
Proof. intros Hs. by rewrite getitem_insert, Hs. Qed.

Lemma df_get_assoc df c s : assoc c (columns df) = Some s → df_get df c = Ok s.
Proof. unfold df_get. by intros ->. Qed.

Lemma coerce_step (h : heap) l X c s :
  assoc c (columns X) = Some s →
  (df_columns l ≫= λ cols : list string,
     if bool_decide (c ∈ cols)
     then getitem l c ≫= λ s : Series, setitem l c (to_numeric s)
     else ret ()) (<[l := X]> h)
  = (Ok (), <[l := df_set X c (to_numeric s)]> h).
Proof.
  intros Hc.
  erewrite bind_ok by apply df_columns_insert.
  rewrite bool_decide_eq_true_2 by (apply assoc_is_Some; eauto).
  erewrite bind_ok by (apply getitem_ok, df_get_assoc, Hc).
  apply setitem_insert.
Qed.

Lemma loc_set_nan_ok (h : heap) l X mask c s :
  df_get X c = Ok s →
  loc_set_nan l mask c (<[l := X]> h)
  = (Ok (), <[l := df_set X c (mask_set_nan mask s)]> h).
Proof.
  intros Hs. unfold loc_set_nan.
  change (bind ?m ?k) with (m ≫= k).
  erewrite bind_ok by (by apply getitem_ok).
  apply setitem_insert.
Qed.

Lemma df_set_set df c s1 s2 : df_set (df_set df c s1) c s2 = df_set df c s2.
Proof. unfold df_set; simpl. by rewrite assoc_set_set. Qed.

Ltac list_pointwise :=
  apply list_eq; intros ?;
  rewrite ?lookup_zip_with, ?list_lookup_fmap, ?lookup_zip_with, ?list_lookup_fmap;
  repeat match goal with
         | |- context [?l !! ?i] => destruct (l !! i); simpl
         end; try done.

Lemma prepare_kpis_run (h : heap) l df s1 s2 :
  h !! l = Some df →
  assoc "TotalClaims" (columns df) = Some s1 →
  assoc "TotalPremium" (columns df) = Some s2 →
  prepare_kpis l h = (Ok (fresh (dom h)), <[fresh (dom h) := kpi_frame df s1 s2]> h).
Proof.
  intros Hl H1 H2. unfold prepare_kpis.
  set (l' := fresh (dom h)).
  erewrite bind_ok; [|unfold df_copy; rewrite Hl; reflexivity].
  fold l'.
  erewrite bind_ok; cycle 1.
  { change (for_each ?l ?b) with (b "TotalClaims";; b "TotalPremium";; ret ()).
    erewrite bind_ok by (apply coerce_step, H1).
    erewrite bind_ok; [reflexivity|].
    apply coerce_step. unfold df_set; simpl. rewrite assoc_set_ne by done. apply H2. }
  unfold kpi_frame.
  pose proof (to_numeric_numeric s1) as Hn1.
  pose proof (to_numeric_numeric s2) as Hn2.
  destruct (to_numeric s1) as [ts|ts|?]; [| |done];
  destruct (to_numeric s2) as [ps|ps|?]; try done.
  all: repeat (erewrite bind_ok;
      [| first [ apply setitem_insert
               | apply loc_set_nan_ok;
                 repeat (rewrite df_get_set_eq || rewrite df_get_set_ne by done);
                 reflexivity
               | apply getitem_ok;
                 repeat (rewrite df_get_set_eq || rewrite df_get_set_ne by done);
                 reflexivity
               | reflexivity ] ]).
  all: rewrite df_set_set.
  all: unfold mret, M_ret, ret; do 2 f_equal.
  all: unfold astype_int, series_eq0, mask_set_nan, np_where_nan, nums, num_truediv.
  all: repeat match goal with
              | |- df_set _ _ _ = df_set _ _ _ => f_equal
              | |- SFloat _ = SFloat _ => f_equal
              | |- SInt _ = SInt _ => f_equal
              end; try done.
  all: list_pointwise.
Qed.

Lemma df_cell_set_eq df c s i : df_cell (df_set df c s) c i = series_at s i.
Proof. unfold df_cell, df_set; simpl. by rewrite assoc_set_eq. Qed.

Lemma df_cell_set_ne df c c' s i :
  c ≠ c' → df_cell (df_set df c s) c' i = df_cell df c' i.
Proof. intros Hne. unfold df_cell, df_set; simpl. by rewrite assoc_set_ne. Qed.

Lemma series_at_nums s i n :
  nums s !! i = Some n → series_at s i = Some (CNum n).
Proof.
  destruct s as [l|l|l]; simpl; rewrite ?list_lookup_fmap; [| |done].
  all: destruct (l !! i); simpl; congruence.
Qed.

Lemma nums_length s : is_numeric s → length (nums s) = series_len s.
Proof. destruct s; simpl; [| |done]; intros _; apply length_fmap. Qed.

Lemma to_numeric_len s : series_len (to_numeric s) = series_len s.
Proof.
  destruct s as [l|l|l]; simpl; try done.
  destruct (mapM num_int (coerce <$> l)) as [zs|] eqn:Hm; simpl.
  - apply length_mapM in Hm. by rewrite <- Hm, length_fmap.
  - by rewrite !length_fmap.
Qed.

(** Row [i] of the table [kpi_frame] builds, from the coerced claims and
    premium of that row. *)
Lemma kpi_frame_cells df s1 s2 i tc tp :
  nums (to_numeric s1) !! i = Some tc →
  nums (to_numeric s2) !! i = Some tp →
  let df' := kpi_frame df s1 s2 in
  df_cell df' "TotalClaims" i = Some (CNum tc) ∧
  df_cell df' "TotalPremium" i = Some (CNum tp) ∧
  df_cell df' "HasClaim" i = Some (CNum (NI (if num_gt0 tc then 1 else 0))) ∧
  df_cell df' "ClaimSeverity" i
    = Some (CNum (NF (if num_gt0 tc then fdiv (num_F tc) (of_Z 1) else nan))) ∧
  df_cell df' "LossRatio" i
    = Some (CNum (NF (if num_gt0 tp then num_truediv tc tp else nan))) ∧
  df_cell df' "Margin" i = Some (CNum (num_sub tp tc)).
Proof.
  intros Htc Htp df'. subst df'. unfold kpi_frame.
  repeat (rewrite df_cell_set_eq || rewrite df_cell_set_ne by done).
  split_and!.
  - by apply series_at_nums.
  - by apply series_at_nums.
  - simpl. by rewrite list_lookup_fmap, Htc.
  - simpl. rewrite lookup_zip_with, list_lookup_fmap, Htc. simpl.
    by destruct (num_gt0 tc).
  - simpl. by rewrite lookup_zip_with, Htp, Htc.
  - destruct (to_numeric s2) as [ps|ps|?], (to_numeric s1) as [ts|ts|?];
      simpl in *; try done.
    all: rewrite list_lookup_fmap in Htc; rewrite list_lookup_fmap in Htp.
    all: rewrite lookup_zip_with, ?list_lookup_fmap.
    all: destruct (ps !! i), (ts !! i); by simplify_eq/=.
Qed.

Lemma assoc_elem_of c s cols : assoc c cols = Some s → (c, s) ∈ cols.
Proof.
  induction cols as [|[c0 s0] cols IH]; simpl; [done|].
  destruct (decide (c0 = c)) as [->|?].
  - intros [= ->]. by left.
  - intros ?. right. by apply IH.
Qed.

Lemma wf_df_len df c s :
  wf_df df → assoc c (columns df) = Some s → series_len s = nrows df.
Proof.
  intros [_ Hlen] Hc. apply assoc_elem_of in Hc.
  by apply (proj1 (Forall_forall _ _) Hlen) in Hc.
Qed.

Lemma nums_lookup_lt s i :
  is_numeric s → (i < series_len s)%nat → is_Some (nums s !! i).
Proof. intros Hn Hi. apply lookup_lt_is_Some. by rewrite nums_length. Qed.

Lemma kpi_frame_index df s1 s2 : index (kpi_frame df s1 s2) = index df.
Proof. done. Qed.

(** C3. Every row of the table [prepare_kpis] returns: HasClaim is 0 or 1,
    and 1 exactly when TotalClaims > 0; with HasClaim = 1 ClaimSeverity is
    TotalClaims, with HasClaim = 0 it is missing; LossRatio is
    TotalClaims / TotalPremium when TotalPremium > 0 and missing otherwise;
    Margin is TotalPremium - TotalClaims. *)
Theorem prepare_kpis_rows `{!Float64Laws F} (h : heap) (l : loc) (df : DataFrame) :
  h !! l = Some df →
  wf_df df →
  "TotalClaims" ∈ names df →
  "TotalPremium" ∈ names df →
  ∃ l' df',
    prepare_kpis l h = (Ok l', <[l' := df']> h) ∧
    nrows df' = nrows df ∧
    ∀ i, (i < nrows df')%nat →
      ∃ tc tp hc cs lr mg,
        df_cell df' "TotalClaims" i = Some (CNum tc) ∧
        df_cell df' "TotalPremium" i = Some (CNum tp) ∧
        df_cell df' "HasClaim" i = Some (CNum (NI hc)) ∧
        df_cell df' "ClaimSeverity" i = Some (CNum (NF cs)) ∧
        df_cell df' "LossRatio" i = Some (CNum (NF lr)) ∧
        df_cell df' "Margin" i = Some (CNum mg) ∧
        (hc = 0 ∨ hc = 1) ∧
        (hc = 1 ↔ num_gt0 tc = true) ∧
        (hc = 1 → cs = num_F tc) ∧
        (hc = 0 → isnan cs = true) ∧
        (num_gt0 tp = true → lr = num_truediv tc tp) ∧
        (num_gt0 tp = false → isnan lr = true) ∧
        mg = num_sub tp tc.
Proof.
  intros Hl Hwf [s1 H1]%assoc_is_Some [s2 H2]%assoc_is_Some.
  exists (fresh (dom h)), (kpi_frame df s1 s2).
  split; [by apply prepare_kpis_run|]. split; [done|].
  intros i Hi. change (i < nrows df)%nat in Hi.
  destruct (nums_lookup_lt (to_numeric s1) i) as [tc Htc];
    [apply to_numeric_numeric|by rewrite to_numeric_len, (wf_df_len df _ _ Hwf H1)|].
  destruct (nums_lookup_lt (to_numeric s2) i) as [tp Htp];
    [apply to_numeric_numeric|by rewrite to_numeric_len, (wf_df_len df _ _ Hwf H2)|].
  destruct (kpi_frame_cells df s1 s2 i tc tp Htc Htp)
    as (Ctc & Ctp & Chc & Ccs & Clr & Cmg).
  eexists tc, tp, _, _, _, _.
  split_and!; try eassumption.
  - destruct (num_gt0 tc); auto.
  - destruct (num_gt0 tc); split; done.
  - destruct (num_gt0 tc); [intros _; apply fdiv_one|done].
  - destruct (num_gt0 tc); [done|intros _; apply isnan_nan].
  - by intros ->.
  - intros ->. apply isnan_nan.
  - done.
Qed.

Lemma to_numeric_nan_cell s i c0 x :
  series_at s i = Some c0 →
  cell_coerce c0 = NF x →
  nums (to_numeric s) !! i = Some (NF x).
Proof.
  destruct s as [l|l|l]; simpl; intros Hat Hc.
  - destruct (l !! i); by simplify_eq/=.
  - rewrite list_lookup_fmap. destruct (l !! i); by simplify_eq/=.
  - destruct (l !! i) as [o|] eqn:Ho; simplify_eq/=.
    destruct (mapM num_int (coerce <$> l)) as [zs|] eqn:Hm; simpl.
    + apply mapM_Some in Hm.
      destruct (Forall2_lookup_l _ _ _ i (coerce o) Hm) as (z & _ & Hz).
      { by rewrite list_lookup_fmap, Ho. }
      by rewrite Hc in Hz.
    + by rewrite !list_lookup_fmap, Ho; simpl; rewrite Hc.
Qed.

Lemma series_at_lt s i c : series_at s i = Some c → (i < series_len s)%nat.
Proof.
  destruct s as [l|l|l]; simpl; intros Hat; apply lookup_lt_is_Some;
    destruct (l !! i); by simplify_eq/=.
Qed.

(** C10. A row whose TotalClaims coerces to a missing value gets
    HasClaim = 0, and a missing ClaimSeverity, LossRatio and Margin. *)
Theorem prepare_kpis_missing_claims `{!Float64Laws F} (h : heap) (l : loc)
    (df : DataFrame) (i : nat) (c0 : cell) (x : F) :
  h !! l = Some df →
  wf_df df →
  "TotalPremium" ∈ names df →
  df_cell df "TotalClaims" i = Some c0 →
  cell_coerce c0 = NF x →
  isnan x = true →
  ∃ l' df' cs lr mg,
    prepare_kpis l h = (Ok l', <[l' := df']> h) ∧
    df_cell df' "HasClaim" i = Some (CNum (NI 0)) ∧
    df_cell df' "ClaimSeverity" i = Some (CNum (NF cs)) ∧ isnan cs = true ∧
    df_cell df' "LossRatio" i = Some (CNum (NF lr)) ∧ isnan lr = true ∧
    df_cell df' "Margin" i = Some (CNum (NF mg)) ∧ isnan mg = true.
Proof.
  intros Hl Hwf [s2 H2]%assoc_is_Some Hc0 Hco Hx.
  unfold df_cell in Hc0.
  destruct (assoc "TotalClaims" (columns df)) as [s1|] eqn:H1; [|done].
  simpl in Hc0.
  pose proof (to_numeric_nan_cell _ _ _ _ Hc0 Hco) as Htc.
  destruct (nums_lookup_lt (to_numeric s2) i) as [tp Htp];
    [apply to_numeric_numeric| |].
  { rewrite to_numeric_len, (wf_df_len df _ _ Hwf H2),
      <- (wf_df_len df _ _ Hwf H1). by eapply series_at_lt. }
  destruct (kpi_frame_cells df s1 s2 i _ tp Htc Htp)
    as (_ & _ & Chc & Ccs & Clr & Cmg).
  assert (num_gt0 (NF x) = false) as Hgt by (by apply fgt_nan_l).
  rewrite Hgt in Chc, Ccs.
  exists (fresh (dom h)), (kpi_frame df s1 s2).
  eexists _, _, (fsub (num_F tp) x).
  split_and!; try eassumption.
  - by apply prepare_kpis_run.
  - apply isnan_nan.
  - destruct (num_gt0 tp); [by apply fdiv_nan_l|apply isnan_nan].
  - rewrite Cmg. by destruct tp.
  - by apply fsub_nan_r.
Qed.

Lemma df_set_id df c s : df_get df c = Ok s → df_set df c s = df.
Proof.
  unfold df_get, df_set. destruct df as [ix cols]; simpl.
  destruct (assoc c cols) eqn:Hc; [|done]. intros [= ->].
  by rewrite assoc_set_id.
Qed.

Lemma kpi_frame_idem df s1 s2 :
  kpi_frame (kpi_frame df s1 s2) (to_numeric s1) (to_numeric s2)
  = kpi_frame df s1 s2.
Proof.
  unfold kpi_frame at 1.
  rewrite (to_numeric_id (to_numeric s1)), (to_numeric_id (to_numeric s2))
    by apply to_numeric_numeric.
  set (X := kpi_frame df s1 s2).
  repeat (rewrite (df_set_id X);
    [|unfold X, kpi_frame;
      repeat (rewrite df_get_set_eq || rewrite df_get_set_ne by done);
      reflexivity]).
  done.
Qed.

Lemma kpi_frame_get df s1 s2 :
  df_get (kpi_frame df s1 s2) "TotalClaims" = Ok (to_numeric s1) ∧
  df_get (kpi_frame df s1 s2) "TotalPremium" = Ok (to_numeric s2) ∧
  Forall (λ c, ∃ s, df_get (kpi_frame df s1 s2) c = Ok s) derived_names.
Proof.
  unfold kpi_frame, derived_names. split_and!; [| |repeat constructor].
  all: repeat (rewrite df_get_set_eq || rewrite df_get_set_ne by done); eauto.
Qed.

Lemma df_get_Ok_assoc df c s : df_get df c = Ok s → assoc c (columns df) = Some s.
Proof. unfold df_get. destruct (assoc c (columns df)); congruence. Qed.

(** C4. [prepare_kpis] applied to its own result builds the same table
    again: in particular the four derived columns are the same. *)
Theorem prepare_kpis_idempotent (h : heap) (l : loc) (df : DataFrame) :
  h !! l = Some df →
  "TotalClaims" ∈ names df →
  "TotalPremium" ∈ names df →
  ∃ l1 df1 l2 df2,
    prepare_kpis l h = (Ok l1, <[l1 := df1]> h) ∧
    prepare_kpis l1 (<[l1 := df1]> h) = (Ok l2, <[l2 := df2]> (<[l1 := df1]> h)) ∧
    l2 ≠ l1 ∧
    Forall (λ c, ∃ s, df_get df1 c = Ok s ∧ df_get df2 c = Ok s) derived_names ∧
    df2 = df1.
Proof.
  intros Hl [s1 H1]%assoc_is_Some [s2 H2]%assoc_is_Some.
  set (l1 := fresh (dom h)).
  set (h1 := <[l1 := kpi_frame df s1 s2]> h).
  destruct (kpi_frame_get df s1 s2) as (G1 & G2 & Gd).
  exists l1, (kpi_frame df s1 s2), (fresh (dom h1)), (kpi_frame df s1 s2).
  split_and!.
  - by apply prepare_kpis_run.
  - pose proof (prepare_kpis_run h1 l1 (kpi_frame df s1 s2)
                  (to_numeric s1) (to_numeric s2)) as Hrun.
    rewrite kpi_frame_idem in Hrun.
    apply Hrun; [apply lookup_insert_eq|by apply df_get_Ok_assoc..].
  - intros Heq. apply (is_fresh (dom h1)). rewrite Heq.
    unfold h1. rewrite dom_insert_L. set_solver.
  - eapply Forall_impl; [apply Gd|]. intros c [s Hs]; eauto.
  - done.
Qed.

(** *** The store outside the copy *)

Lemma bind_inv {S A B} (m : M S A) (k : A → M S B) s r s' :
  (m ≫= k) s = (r, s') →
  (∃ a s1, m s = (Ok a, s1) ∧ k a s1 = (r, s')) ∨
  (∃ e, m s = (Raise e, s') ∧ r = Raise e).
Proof.
  unfold mbind, M_bind, bind. destruct (m s) as [[a|e] s1]; intros Hk.
  - left. eauto.
  - right. exists e. by simplify_eq.
Qed.

Lemma wo_bind {A B} l' (m : M heap A) (k : A → M heap B) :
  writes_only l' m → (∀ a, writes_only l' (k a)) → writes_only l' (m ≫= k).
Proof.
  intros Hm Hk h r h' [(a & h1 & Hma & Hka)|(e & Hme & _)]%bind_inv l0 Hne.
  - rewrite (Hk a _ _ _ Hka l0 Hne). by apply (Hm _ _ _ Hma).
  - by apply (Hm _ _ _ Hme).
Qed.

Lemma wo_ret {A} l' (a : A) : writes_only l' (ret (S:=heap) a).
Proof. intros h r h' [= _ ->]. done. Qed.

Lemma wo_lift {A} l' (a : result A) : writes_only l' (lift (S:=heap) a).
Proof. intros h r h' [= _ ->]. done. Qed.

Lemma wo_getitem l' l c : writes_only l' (getitem l c).
Proof.
  intros h r h'. unfold getitem, deref, bind, lift.
  destruct (h !! l); by intros [= _ ->].
Qed.

Lemma wo_df_columns l' l : writes_only l' (df_columns l).
Proof.
  intros h r h'. unfold df_columns, deref, bind, ret.
  destruct (h !! l); by intros [= _ ->].
Qed.

Lemma wo_setitem l' c s : writes_only l' (setitem l' c s).
Proof.
  intros h r h'. unfold setitem.
  destruct (h !! l'); intros [= _ <-] l0 Hne; [|done].
  by rewrite lookup_insert_ne.
Qed.

Lemma wo_loc_set_nan l' mask c : writes_only l' (loc_set_nan l' mask c).
Proof.
  unfold loc_set_nan. change (bind ?m ?k) with (m ≫= k).
  apply wo_bind; [apply wo_getitem|intros; apply wo_setitem].
Qed.

Lemma wo_for_each {A} l' (xs : list A) body :
  (∀ x, writes_only l' (body x)) → writes_only l' (for_each xs body).
Proof.
  intros Hb. induction xs as [|x xs IH]; simpl; [apply wo_ret|].
  apply wo_bind; auto.
Qed.

Lemma prepare_kpis_store (h : heap) l r h' :
  prepare_kpis l h = (r, h') →
  ∀ l0 df0, h !! l0 = Some df0 → h' !! l0 = Some df0.
Proof.
  unfold prepare_kpis.
  intros [(l' & h1 & Hcp & Hrest)|(e & Hcp & _)]%bind_inv l0 df0 H0.
  - unfold df_copy in Hcp. destruct (h !! l) as [df|]; [|done].
    injection Hcp as <- <-.
    assert (l0 ≠ fresh (dom h)) as Hne.
    { intros ->. apply (is_fresh (dom h)), elem_of_dom. eauto. }
    revert Hrest. set (l' := fresh (dom h)). intros Hrest.
    assert (h' !! l0 = <[l' := df]> h !! l0) as ->;
      [|by rewrite lookup_insert_ne].
    clear H0. revert Hrest l0 Hne. generalize (<[l' := df]> h). intros h1 Hrest.
    eapply (λ Hw, Hw h1 r h' Hrest). clear.
    repeat first
      [ apply wo_ret | apply wo_lift | apply wo_getitem | apply wo_setitem
      | apply wo_loc_set_nan | apply wo_df_columns
      | apply wo_for_each; intros ?
      | apply wo_bind; [|intros ?]
      | match goal with |- writes_only _ (if ?b then _ else _) => destruct b end ].
  - unfold df_copy in Hcp. destruct (h !! l) as [df|]; [done|].
    by injection Hcp as _ <-.
Qed.

Lemma kpi_frame_kept df s1 s2 : columns_kept kpi_names df (kpi_frame df s1 s2).
Proof.
  intros c _ Hc. unfold kpi_frame.
  rewrite !df_get_set_ne; [done|intros <-; apply Hc; unfold kpi_names, derived_names..].
  all: set_solver.
Qed.

(** C9, as amended. [prepare_kpis] changes no object the store held, the
    caller's table among them, whatever it returns. From a table with
    the claims and premium columns it returns a new object with the same
    row index, in which every column is as it was, except TotalClaims
    and TotalPremium (coerced) and columns that already had the name of a
    derived column (overwritten). *)
Theorem prepare_kpis_frame (h : heap) (l : loc) (df : DataFrame) :
  h !! l = Some df →
  (∀ l0 df0, h !! l0 = Some df0 → (prepare_kpis l h).2 !! l0 = Some df0) ∧
  ("TotalClaims" ∈ names df → "TotalPremium" ∈ names df →
   ∃ l' df',
     prepare_kpis l h = (Ok l', <[l' := df']> h) ∧
     h !! l' = None ∧
     index df' = index df ∧
     columns_kept kpi_names df df').
Proof.
  intros Hl. split.
  - intros l0 df0. eapply prepare_kpis_store. apply surjective_pairing.
  - intros [s1 H1]%assoc_is_Some [s2 H2]%assoc_is_Some.
    exists (fresh (dom h)), (kpi_frame df s1 s2). split_and!; try done.
    + by apply prepare_kpis_run.
    + apply not_elem_of_dom, is_fresh.
    + apply kpi_frame_kept.
Qed.

(** ** Group aggregation *)

Global Instance by_n_policies_desc_total : Total by_n_policies_desc.
Proof. intros r1 r2. unfold by_n_policies_desc. lia. Qed.

Global Instance by_n_policies_desc_trans : Transitive by_n_policies_desc.
Proof. intros r1 r2 r3. unfold by_n_policies_desc. lia. Qed.

Lemma StronglySorted_filter {A} (R : relation A) (P : A → Prop)
    `{∀ x, Decision (P x)} (l : list A) :
  StronglySorted R l → StronglySorted R (filter P l).
Proof.
  induction 1 as [|x l Hs IH Hx]; [constructor|].
  rewrite filter_cons. destruct (decide (P x)); [|done].
  constructor; [done|].
  apply Forall_forall. intros y [_ Hy]%list_elem_of_filter.
  by apply (proj1 (Forall_forall _ _) Hx).
Qed.

Lemma rbind_Ok {A B} (r : result A) (k : A → result B) b :
  rbind r k = Ok b → ∃ a, r = Ok a ∧ k a = Ok b.
Proof. destruct r; simpl; [eauto|done]. Qed.

Lemma mapR_Ok {A B} (f : A → result B) (l : list A) :
  Forall (λ x, ∃ y, f x = Ok y) l → ∃ ys, mapR f l = Ok ys.
Proof.
  induction 1 as [|x l [y Hy] _ [ys Hys]]; simpl; [eauto|].
  rewrite Hy; simpl. rewrite Hys; simpl. eauto.
Qed.

Lemma labels_filter m s labs :
  labels s = Ok labs → ∃ labs', labels (series_filter m s) = Ok labs'.
Proof. destruct s; simpl; [eauto|done|eauto]. Qed.

Lemma series_mean_numeric m s :
  is_numeric s → ∃ x, series_mean (series_filter m s) = Ok x.
Proof. destruct s; [| |done]; intros _; unfold series_mean; simpl; eauto. Qed.

Lemma series_sum_numeric m s :
  is_numeric s → ∃ x, series_sum (series_filter m s) = Ok x.
Proof. destruct s; [| |done]; intros _; unfold series_sum; simpl; eauto. Qed.

(** C5. Every row of a table [agg_by_group] returns has
    n_policies >= min_count, and the rows are in descending order of
    n_policies; and from a KPI-derived table whose grouping column (and
    PolicyID column, if any) holds group values and is not itself one of
    the aggregated columns, [agg_by_group] does return a table. *)
Theorem agg_by_group_min_count_sorted (df : DataFrame) (group_col : string)
    (min_count : Z) :
  (∀ g, agg_by_group df group_col min_count = Ok g →
     Forall (λ r, min_count ≤ n_policies r) g ∧
     StronglySorted (λ r1 r2, n_policies r2 ≤ n_policies r1) g) ∧
  (kpi_derived df →
   label_column df group_col →
   group_col ∉ "PolicyID" :: derived_names →
   ("PolicyID" ∈ names df → label_column df "PolicyID") →
   ∃ g, agg_by_group df group_col min_count = Ok g).
Proof.
  split.
  - intros g Hg. unfold agg_by_group in Hg.
    apply rbind_Ok in Hg as (gc & _ & Hg).
    apply rbind_Ok in Hg as (labs & _ & Hg).
    apply rbind_Ok in Hg as (? & _ & Hg).
    apply rbind_Ok in Hg as (g0 & _ & Hg).
    injection Hg as <-. split.
    + apply Forall_forall. by intros r [? _]%list_elem_of_filter.
    + apply StronglySorted_filter.
      apply (StronglySorted_merge_sort by_n_policies_desc).
  - intros (hc & cs & lr & mg & Hhc & Hcs & Hlr & Hmg & Hnum)
      (gc & labs & Hgc & Hlabs) Hcol Hpid.
    assert (∀ c s, c ∈ "PolicyID" :: derived_names → df_get df c = Ok s →
                   agg_select df group_col c = Ok s) as Hsel.
    { intros c s Hc Hs. unfold agg_select.
      rewrite decide_False; [done|]. by intros ->. }
    pose proof (Hsel "HasClaim" _ ltac:(by_compute) Hhc) as Shc.
    pose proof (Hsel "ClaimSeverity" _ ltac:(by_compute) Hcs) as Scs.
    pose proof (Hsel "LossRatio" _ ltac:(by_compute) Hlr) as Slr.
    pose proof (Hsel "Margin" _ ltac:(by_compute) Hmg) as Smg.
    unfold agg_by_group. rewrite Hgc; cbn [rbind]. rewrite Hlabs; cbn [rbind].
    assert (∃ u, mapR (agg_select df group_col)
              [if bool_decide ("PolicyID" ∈ names df)
               then "PolicyID" else "HasClaim";
               "HasClaim"; "ClaimSeverity"; "LossRatio"; "Margin"] = Ok u)
      as [u ->].
    { cbn [mapR]. rewrite Shc, Scs, Slr, Smg.
      case_bool_decide as Hin.
      - destruct (Hpid Hin) as (ps & plabs & Hps & _).
        rewrite (Hsel "PolicyID" ps ltac:(by_compute) Hps). cbn [rbind]. eauto.
      - rewrite Shc. cbn [rbind]. eauto. }
    cbn [rbind].
    destruct (mapR_Ok (agg_row df group_col labs) (group_keys labs)) as [g0 Hg0].
    + apply Forall_forall. intros k _. unfold agg_row.
      assert (∃ np,
        (if bool_decide ("PolicyID" ∈ names df)
         then agg_group df group_col (group_mask labs k) "PolicyID"
                series_nunique
         else agg_group df group_col (group_mask labs k) "HasClaim"
                (λ s, Ok (series_count s))) = Ok np) as [np ->].
      { case_bool_decide as Hin.
        - destruct (Hpid Hin) as (ps & plabs & Hps & Hpl).
          unfold agg_group.
          rewrite (Hsel "PolicyID" ps ltac:(by_compute) Hps); cbn [rbind].
          destruct (labels_filter (group_mask labs k) _ _ Hpl) as [l' Hl'].
          unfold series_nunique. rewrite Hl'; simpl. eauto.
        - unfold agg_group. rewrite Shc; simpl. eauto. }
      cbn [rbind]. unfold agg_group. rewrite Shc, Scs, Slr, Smg; cbn [rbind].
      destruct (series_sum_numeric (group_mask labs k) (SInt hc) I) as [nc ->].
      destruct (series_mean_numeric (group_mask labs k) (SFloat cs) I) as [x1 ->].
      destruct (series_mean_numeric (group_mask labs k) (SFloat lr) I) as [x2 ->].
      destruct (series_mean_numeric (group_mask labs k) mg Hnum) as [x3 ->].
      cbn [rbind]. eauto.
    + rewrite Hg0; simpl. eauto.
Qed.

(** ** Counting the rows of a group *)

Lemma wrap64_small z : - 2 ^ 63 ≤ z < 2 ^ 63 → wrap64 z = z.
Proof. intros Hz. unfold wrap64. rewrite Z.mod_small; lia. Qed.

Lemma mask_filter_group_length {A} labs k (xs : list A) :
  length labs = length xs →
  Z.of_nat (length (mask_filter (group_mask labs k) xs)) = n_rows labs k.
Proof.
  unfold n_rows. intros Hlen. f_equal.
  revert xs Hlen. induction labs as [|o labs IH]; intros [|x xs] Hlen;
    simplify_eq/=; [done|].
  rewrite filter_cons. case_bool_decide; case_decide; try done; simpl; auto.
Qed.

Lemma mask_filter_group_sum labs k hc :
  length labs = length hc →
  Forall (λ z, z = 0 ∨ z = 1) hc →
  sumZ (mask_filter (group_mask labs k) hc) = n_with labs hc k 1 ∧
  n_rows labs k - n_with labs hc k 1 = n_with labs hc k 0 ∧
  0 ≤ n_with labs hc k 1 ≤ n_rows labs k.
Proof.
  unfold n_with, n_rows. intros Hlen Hhc.
  revert hc Hlen Hhc. induction labs as [|o labs IH]; intros [|x xs] Hlen Hhc;
    simplify_eq/=; [done|].
  apply Forall_cons in Hhc as [Hx Hxs].
  destruct (IH xs Hlen Hxs) as (IH1 & IH2 & IH3).
  rewrite !filter_cons. simpl.
  case_bool_decide as Ho; repeat case_decide; simpl; try lia.
  all: destruct Hx; intuition (simplify_eq; lia).
Qed.

Lemma n_rows_le labs k : 0 ≤ n_rows labs k ≤ Z.of_nat (length labs).
Proof. unfold n_rows. pose proof (length_filter (λ o, o = Some k) labs). lia. Qed.

Lemma labels_length s labs : labels s = Ok labs → length labs = series_len s.
Proof. destruct s; simpl; intros [= <-]; by rewrite length_fmap. Qed.

Lemma mapR_fmap {A B} (f : A → result B) (g : A → B) (l : list A) :
  (∀ x, f x = Ok (g x)) → mapR f l = Ok (g <$> l).
Proof.
  intros Hf. induction l as [|x l IH]; simpl; [done|].
  by rewrite Hf, IH.
Qed.



Section TestsProofs.
Variable chi2_contingency : list (list num) → F * F * Z * list (list F).
Variable proportions_ztest : list Z → list Z → F * F.


(** *** The order of group values *)

Lemma key_leb_total a b : key_leb a b = true ∨ key_leb b a = true.
Proof.
  destruct a as [x|x], b as [y|y]; simpl; auto.
  - destruct (decide (x ≤ y)).
    + left. by apply bool_decide_eq_true.
    + right. apply bool_decide_eq_true. lia.
  - apply String.leb_total.
Qed.

Lemma key_leb_antisym a b : key_leb a b = true → key_leb b a = true → a = b.
Proof.
  destruct a as [x|x], b as [y|y]; simpl; try done.
  - intros ?%bool_decide_eq_true ?%bool_decide_eq_true. f_equal. lia.
  - intros H1 H2. f_equal. by apply String.leb_antisym.
Qed.

Lemma merge_sort_two (x y : key) :
  merge_sort key_le [x; y] = if key_leb x y then [x; y] else [y; x].
Proof.
  unfold merge_sort. simpl.
  destruct (decide (key_le x y)) as [Hle|Hle]; unfold key_le in Hle.
  - by rewrite Hle.
  - by apply not_true_is_false in Hle as ->.
Qed.

(** The groups of a column in which exactly the two distinct values [a]
    and [b] occur. *)
Lemma group_keys_pair labs a b :
  a ≠ b →
  (∀ k, Some k ∈ labs ↔ k = a ∨ k = b) →
  group_keys labs = if key_leb a b then [a; b] else [b; a].
Proof.
  intros Hne Hin. unfold group_keys.
  pose proof (NoDup_remove_dups (omap id labs)) as Hnd.
  assert (∀ k, k ∈ remove_dups (omap id labs) ↔ k = a ∨ k = b) as Hel.
  { intros k. rewrite elem_of_remove_dups, list_elem_of_omap. rewrite <- Hin.
    split; [by intros ([?|] & ? & ?); simplify_eq/=|]. intros ?. by exists (Some k). }
  destruct (remove_dups (omap id labs)) as [|x [|y [|z l]]].
  - exfalso. eapply (elem_of_nil a), Hel. by left.
  - exfalso. assert (a = x) by (apply list_elem_of_singleton, Hel; by left).
    assert (b = x) by (apply list_elem_of_singleton, Hel; by right). congruence.
  - rewrite merge_sort_two.
    apply NoDup_cons in Hnd as [Hxy _].
    assert (x ≠ y) as Hxy' by (intros ->; apply Hxy; by left).
    assert (x = a ∨ x = b) as Hx by (apply Hel; by left).
    assert (y = a ∨ y = b) as Hy by (apply Hel; right; by left).
    destruct Hx as [->| ->], Hy as [->| ->]; try done.
    destruct (key_leb b a) eqn:Hba, (key_leb a b) eqn:Hab; try done.
    + by destruct (Hne (key_leb_antisym a b Hab Hba)).
    + destruct (key_leb_total a b); congruence.
  - exfalso.
    apply NoDup_cons in Hnd as [Hx Hnd]. apply NoDup_cons in Hnd as [Hy Hnd].
    apply NoDup_cons in Hnd as [Hz _].
    assert (x ∈ x :: y :: z :: l) as Hx' by (by left).
    assert (y ∈ x :: y :: z :: l) as Hy' by (right; by left).
    assert (z ∈ x :: y :: z :: l) as Hz' by (right; right; by left).
    apply Hel in Hx', Hy', Hz'.
    assert (x ≠ y) by (intros ->; apply Hx; by left).
    assert (x ≠ z) by (intros ->; apply Hx; right; by left).
    assert (y ≠ z) by (intros ->; apply Hy; by left).
    destruct Hx', Hy', Hz'; congruence.
Qed.

(** *** The sub-table of two groups *)

Lemma df_get_filter m df c :
  df_get (df_filter m df) c = rbind (df_get df c) (λ s, Ok (series_filter m s)).
Proof.
  unfold df_get, df_filter; simpl.
  induction (columns df) as [|[c' s'] cols IH]; simpl; [done|].
  case_decide; [done|apply IH].
Qed.

Lemma mask_filter_fmap {A B} (f : A → B) m (l : list A) :
  mask_filter m (f <$> l) = f <$> mask_filter m l.
Proof.
  revert l. induction m as [|[] m IH]; intros [|x l]; simpl; try done.
  by rewrite IH.
Qed.

Lemma labels_series_filter m s labs :
  labels s = Ok labs → labels (series_filter m s) = Ok (mask_filter m labs).
Proof.
  destruct s; simpl; intros [= <-]; by rewrite mask_filter_fmap.
Qed.

Lemma series_isin_pair s labs a b :
  labels s = Ok labs →
  series_isin s [a; b] = (λ o, bool_decide (o = Some a ∨ o = Some b)) <$> labs.
Proof.
  assert (∀ o k, obj_eq_key o k = bool_decide (obj_label o = Some k)) as Heq.
  { intros [s0|z|] [w|t]; simpl; try done.
    - apply bool_decide_ext. split; congruence.
    - apply bool_decide_ext. split; congruence. }
  assert (∀ o, existsb (obj_eq_key o) [a; b]
               = bool_decide (obj_label o = Some a ∨ obj_label o = Some b)) as Hex.
  { intros o. simpl. rewrite !Heq, orb_false_r.
    repeat case_bool_decide; simpl; tauto. }
  destruct s as [l|l|l]; simpl; intros [= <-]; rewrite <- list_fmap_compose;
    apply list_fmap_ext; intros _ x _; simpl.
  - apply (Hex (OInt x)).
  - apply Hex.
Qed.

Lemma mask_filter_pred {A} (P : A → Prop) `{∀ x, Decision (P x)} (l : list A) :
  mask_filter ((λ x, bool_decide (P x)) <$> l) l = filter P l.
Proof.
  induction l as [|x l IH]; [done|].
  rewrite fmap_cons, filter_cons. simpl. rewrite IH.
  by case_bool_decide; case_decide.
Qed.

(** Dropping rows of other groups leaves the rows of group [k]. *)
Lemma mask_filter_group_sub {A} (P : option key → Prop)
    `{∀ o, Decision (P o)} labs k (xs : list A) :
  P (Some k) →
  length labs = length xs →
  let m := (λ o, bool_decide (P o)) <$> labs in
  mask_filter (group_mask (mask_filter m labs) k) (mask_filter m xs)
  = mask_filter (group_mask labs k) xs.
Proof.
  intros HP Hlen. simpl. revert xs Hlen.
  induction labs as [|o labs IH]; intros [|x xs] Hlen; simplify_eq/=; [done|].
  case_bool_decide as Ho; simpl.
  - rewrite IH by done. done.
  - rewrite IH by done. case_bool_decide; [by subst|done].
Qed.

(** C2, as amended. For two distinct group values that both occur in
    the table, [proportion_ztest_pair] returns the claim counts and the
    observation counts of the two groups with the smaller group value
    first (the sorted order of [groupby]), and the statistic and p-value
    of the z-test on them. *)
Theorem proportion_ztest_pair_sorted (df : DataFrame) (group_col : string)
    (group_a group_b : key) (gc : Series) (labs : list (option key))
    (hc : list Z) :
  wf_df df →
  Z.of_nat (nrows df) < 2 ^ 63 →
  df_get df group_col = Ok gc →
  labels gc = Ok labs →
  df_get df "HasClaim" = Ok (SInt hc) →
  Forall (λ z, z = 0 ∨ z = 1) hc →
  Some group_a ∈ labs →
  Some group_b ∈ labs →
  group_a ≠ group_b →
  let lo := if key_leb group_a group_b then group_a else group_b in
  let hi := if key_leb group_a group_b then group_b else group_a in
  let count := [n_with labs hc lo 1; n_with labs hc hi 1] in
  let nobs := [n_rows labs lo; n_rows labs hi] in
  proportion_ztest_pair proportions_ztest df group_col group_a group_b
  = Ok [("statistic", PFloat (proportions_ztest count nobs).1);
        ("pvalue", PFloat (proportions_ztest count nobs).2);
        ("count", PInts count);
        ("nobs", PInts nobs)].
Proof.
  intros Hwf Hbig Hgc Hlabs Hhc H01 Ha Hb Hne lo hi count nobs.
  assert (length labs = length hc) as Hlen.
  { rewrite (labels_length _ _ Hlabs).
    rewrite (wf_df_len df group_col gc Hwf (df_get_Ok_assoc _ _ _ Hgc)).
    by rewrite <- (wf_df_len df "HasClaim" (SInt hc) Hwf (df_get_Ok_assoc _ _ _ Hhc)). }
  assert (Z.of_nat (length hc) < 2 ^ 63) as Hbig'.
  { by rewrite <- (wf_df_len df "HasClaim" (SInt hc) Hwf (df_get_Ok_assoc _ _ _ Hhc))
      in Hbig. }
  set (P := λ o : option key, o = Some group_a ∨ o = Some group_b).
  set (m := (λ o, bool_decide (P o)) <$> labs).
  unfold proportion_ztest_pair. rewrite Hgc; cbn [rbind].
  rewrite (series_isin_pair gc labs group_a group_b Hlabs). cbv zeta.
  change ((λ o, bool_decide (o = Some group_a ∨ o = Some group_b)) <$> labs)
    with m.
  assert (group_keys (mask_filter m labs) = [lo; hi]) as Hkeys.
  { unfold m. rewrite mask_filter_pred.
    rewrite (group_keys_pair _ group_a group_b Hne).
    - unfold lo, hi. by destruct (key_leb group_a group_b).
    - intros k. rewrite list_elem_of_filter. unfold P. split.
      + intros [[?|?] _]; simplify_eq; auto.
      + intros [->| ->]; auto. }
  assert (∀ k, P (Some k) →
    series_sum (series_filter (group_mask (mask_filter m labs) k)
                  (series_filter m (SInt hc)))
    = Ok (NI (n_with labs hc k 1)) ∧
    series_count (series_filter (group_mask (mask_filter m labs) k)
                    (series_filter m (SInt hc)))
    = n_rows labs k) as Hagg.
  { intros k Hk. unfold series_sum, series_count. simpl.
    unfold m. rewrite (mask_filter_group_sub P labs k hc Hk Hlen).
    rewrite mask_filter_group_length by done.
    destruct (mask_filter_group_sum labs k hc Hlen H01) as (-> & _ & Hle).
    pose proof (n_rows_le labs k).
    by rewrite wrap64_small by lia. }
  assert (P (Some lo) ∧ P (Some hi)) as [Plo Phi].
  { unfold P, lo, hi. destruct (key_leb group_a group_b); auto. }
  assert (∀ A (f : Series → result A) vlo vhi,
    f (series_filter (group_mask (mask_filter m labs) lo)
         (series_filter m (SInt hc))) = Ok vlo →
    f (series_filter (group_mask (mask_filter m labs) hi)
         (series_filter m (SInt hc))) = Ok vhi →
    groupby_agg (df_filter m df) group_col "HasClaim" f
    = Ok [(lo, vlo); (hi, vhi)]) as Hgb.
  { intros A f vlo vhi Hflo Hfhi. unfold groupby_agg.
    rewrite !df_get_filter, Hgc, Hhc; cbn [rbind].
    rewrite (labels_series_filter m gc labs Hlabs); cbn [rbind].
    rewrite Hkeys. cbn [mapR]. by rewrite Hflo, Hfhi. }
  rewrite (Hgb _ series_sum _ _ (proj1 (Hagg lo Plo)) (proj1 (Hagg hi Phi))).
  cbn [rbind].
  rewrite (Hgb _ (λ s, Ok (NI (series_count s))) (NI (n_rows labs lo))
             (NI (n_rows labs hi)))
    by (by rewrite ?(proj2 (Hagg lo Plo)), ?(proj2 (Hagg hi Phi))).
  cbn. fold count nobs.
  by destruct (proportions_ztest count nobs).
Qed.

End TestsProofs.

(** ** The adaptive two-group test *)

Section AdaptiveTestProofs.
Variable sample : Z → Series → result Series.
Variable shapiro : Series → result F.
Variable ttest_ind : Series → Series → bool → string → F * F.
Variable mannwhitneyu : Series → Series → string → F * F.

Local Abbreviation shapiro_pvalue := (shapiro_pvalue sample shapiro).
Local Abbreviation both_normal := (both_normal sample shapiro).

Lemma normality_check_run (a b : Series) (lg : log) :
  ∃ pre,
    normality_check sample shapiro a b lg = (Ok (both_normal a b), (lg ++ pre)%list) ∧
    Forall is_normality_call pre.
Proof.
  unfold normality_check, both_normal, shapiro_pvalue, try_except, do_sample,
    do_shapiro, emit, lift, mbind, M_bind, bind, mret, M_ret, ret.
  do 2 case_bool_decide; cbn [rbind];
    repeat match goal with
           | |- context [sample ?n ?x] => destruct (sample n x); cbn [rbind]
           | |- context [shapiro ?x] => destruct (shapiro x); cbn [rbind]
           end;
    rewrite <- ?app_assoc; simpl.
  all: eexists; (split; [reflexivity|]).
  all: repeat (constructor; [exact I|]); constructor.
Qed.

Local Abbreviation ttest_or_mannwhitney' :=
  (ttest_or_mannwhitney sample shapiro ttest_ind mannwhitneyu).
Local Abbreviation compare_samples' :=
  (compare_samples sample shapiro ttest_ind mannwhitneyu).

(** With the grouping column and the numeric column in the table, the
    extraction cannot fail, and the rest runs on the two samples. *)
Lemma lift_ok {S A} (r : result A) (a : A) (s : S) :
  r = Ok a → lift r s = (Ok a, s).
Proof. by intros ->. Qed.

Lemma ttest_or_mannwhitney_extract df group_col group_a group_b numeric_col
    gc nc lg :
  df_get df group_col = Ok gc →
  df_get df numeric_col = Ok nc →
  ttest_or_mannwhitney' df group_col group_a group_b numeric_col lg
  = compare_samples' (extract_sample gc nc group_a group_b group_a)
                     (extract_sample gc nc group_a group_b group_b) lg.
Proof.
  intros Hgc Hnc. unfold ttest_or_mannwhitney, extract_sample.
  erewrite bind_ok by (by apply lift_ok). cbv zeta.
  do 4 (erewrite bind_ok
          by (apply lift_ok; rewrite !df_get_filter, ?Hgc, ?Hnc; reflexivity)).
  reflexivity.
Qed.

(** What [compare_samples] does when both samples have five values or
    more. *)
Lemma compare_samples_run (a b : Series) (lg : log) :
  5 ≤ len a → 5 ≤ len b →
  ∃ pre, Forall is_normality_call pre ∧
    compare_samples' a b lg =
      if both_normal a b && bool_decide (30 ≤ len a) && bool_decide (30 ≤ len b)
      then
        (Ok [("test", PStr "t-test (Welch)");
             ("statistic", PFloat (ttest_ind a b false "omit").1);
             ("pvalue", PFloat (ttest_ind a b false "omit").2);
             ("n_a", PInt (len a)); ("n_b", PInt (len b))],
         (lg ++ pre ++ [CallTtestInd a b false "omit"])%list)
      else
        (Ok [("test", PStr "Mann-Whitney U");
             ("statistic", PFloat (mannwhitneyu a b "two-sided").1);
             ("pvalue", PFloat (mannwhitneyu a b "two-sided").2);
             ("n_a", PInt (len a)); ("n_b", PInt (len b))],
         (lg ++ pre ++ [CallMannWhitneyU a b "two-sided"])%list).
Proof.
  intros Ha Hb. destruct (normality_check_run a b lg) as (pre & Hrun & Hpre).
  exists pre. split; [done|]. unfold compare_samples. cbv zeta.
  rewrite !bool_decide_eq_false_2 by lia. cbn [orb].
  erewrite bind_ok by apply Hrun.
  destruct (both_normal a b && bool_decide (30 ≤ len a) && bool_decide (30 ≤ len b)).
  - unfold do_ttest_ind, emit, mbind, M_bind, bind, mret, M_ret, ret. simpl.
    rewrite <- app_assoc. by destruct (ttest_ind a b false "omit").
  - unfold do_mannwhitneyu, emit, mbind, M_bind, bind, mret, M_ret, ret. simpl.
    rewrite <- app_assoc. by destruct (mannwhitneyu a b "two-sided").
Qed.

Lemma both_normal_true (a b : Series) :
  both_normal a b = true ↔
  ∃ pa pb, shapiro_pvalue a = Ok pa ∧ shapiro_pvalue b = Ok pb ∧
           fgt pa f0_05 = true ∧ fgt pb f0_05 = true.
Proof.
  unfold both_normal. split.
  - destruct (shapiro_pvalue a) as [pa|], (shapiro_pvalue b) as [pb|]; try done.
    intros [? ?]%andb_true_iff. by exists pa, pb.
  - intros (pa & pb & -> & -> & -> & ->). done.
Qed.

(** C8. When either sample has fewer than five defined values,
    [ttest_or_mannwhitney] returns a dictionary with an [error] key and
    the two sizes as [n_a] and [n_b], and calls no routine of
    [scipy.stats]: the log is as it was. *)
Theorem ttest_or_mannwhitney_too_few (df : DataFrame) (group_col : string)
    (group_a group_b : key) (numeric_col : string) (gc nc : Series) (lg : log) :
  df_get df group_col = Ok gc →
  df_get df numeric_col = Ok nc →
  let a := extract_sample gc nc group_a group_b group_a in
  let b := extract_sample gc nc group_a group_b group_b in
  len a < 5 ∨ len b < 5 →
  ∃ d,
    ttest_or_mannwhitney' df group_col group_a group_b numeric_col lg = (Ok d, lg) ∧
    is_Some (dict_get d "error") ∧
    dict_get d "n_a" = Some (PInt (len a)) ∧
    dict_get d "n_b" = Some (PInt (len b)) ∧
    dict_get d "test" = None ∧
    dict_get d "statistic" = None ∧
    dict_get d "pvalue" = None.
Proof.
  intros Hgc Hnc a b Hfew.
  rewrite (ttest_or_mannwhitney_extract _ _ _ _ _ gc nc lg Hgc Hnc).
  fold a b. unfold compare_samples. cbv zeta.
  assert (bool_decide (len a < 5) || bool_decide (len b < 5) = true) as ->.
  { apply orb_true_iff. rewrite !bool_decide_eq_true. done. }
  eexists. split; [reflexivity|]. by split_and!.
Qed.

(** C1. With five defined values or more in both samples,
    [ttest_or_mannwhitney] runs Welch's t-test, and reports
    "t-test (Welch)", exactly when both Shapiro p-values exceed 0.05 and
    both samples have 30 values or more; in every other case it runs the
    two-sided Mann-Whitney U test and reports "Mann-Whitney U". Before
    the test it calls only the normality check. *)
Theorem ttest_or_mannwhitney_choice (df : DataFrame) (group_col : string)
    (group_a group_b : key) (numeric_col : string) (gc nc : Series) (lg : log) :
  df_get df group_col = Ok gc →
  df_get df numeric_col = Ok nc →
  let a := extract_sample gc nc group_a group_b group_a in
  let b := extract_sample gc nc group_a group_b group_b in
  5 ≤ len a →
  5 ≤ len b →
  let welch :=
    (∃ pa pb, shapiro_pvalue a = Ok pa ∧ shapiro_pvalue b = Ok pb ∧
              fgt pa f0_05 = true ∧ fgt pb f0_05 = true) ∧
    30 ≤ len a ∧ 30 ≤ len b in
  ∃ d pre c,
    ttest_or_mannwhitney' df group_col group_a group_b numeric_col lg
      = (Ok d, (lg ++ pre ++ [c])%list) ∧
    Forall is_normality_call pre ∧
    (dict_get d "test" = Some (PStr "t-test (Welch)") ↔ welch) ∧
    (welch →
       c = CallTtestInd a b false "omit" ∧
       d = [("test", PStr "t-test (Welch)");
            ("statistic", PFloat (ttest_ind a b false "omit").1);
            ("pvalue", PFloat (ttest_ind a b false "omit").2);
            ("n_a", PInt (len a)); ("n_b", PInt (len b))]) ∧
    (¬ welch →
       c = CallMannWhitneyU a b "two-sided" ∧
       d = [("test", PStr "Mann-Whitney U");
            ("statistic", PFloat (mannwhitneyu a b "two-sided").1);
            ("pvalue", PFloat (mannwhitneyu a b "two-sided").2);
            ("n_a", PInt (len a)); ("n_b", PInt (len b))]).
Proof.
  intros Hgc Hnc a b Ha Hb welch.
  rewrite (ttest_or_mannwhitney_extract _ _ _ _ _ gc nc lg Hgc Hnc).
  fold a b.
  destruct (compare_samples_run a b lg Ha Hb) as (pre & Hpre & ->).
  assert (both_normal a b && bool_decide (30 ≤ len a) && bool_decide (30 ≤ len b)
          = true ↔ welch) as Hw.
  { unfold welch. rewrite !andb_true_iff, !bool_decide_eq_true, both_normal_true.
    tauto. }
  destruct (both_normal a b && bool_decide (30 ≤ len a) && bool_decide (30 ≤ len b)).
  - eexists _, pre, _. split; [reflexivity|]. split; [done|].
    assert welch as Hwelch by (by apply Hw).
    split_and!; [done|done|done].
  - eexists _, pre, _. split; [reflexivity|]. split; [done|].
    assert (¬ welch) as Hwelch by (intros ?%Hw; done).
    split_and!; [|done|done]. split; [done|by intros ?].
Qed.


End AdaptiveTestProofs.
(** * Further properties

    ** [prepare_kpis]: missing columns *)

Lemma bind_raise {S A B} (m : M S A) (k : A → M S B) s e s' :
  m s = (Raise e, s') → (m ≫= k) s = (Raise e, s').
Proof. intros Hm. unfold mbind, M_bind, bind. by rewrite Hm. Qed.

Lemma assoc_None c cols : c ∉ cols.*1 → assoc c cols = None.
Proof.
  intros Hc. destruct (assoc c cols) eqn:Ha; [|done].
  destruct Hc. apply assoc_is_Some. eauto.
Qed.

Lemma getitem_raise (h : heap) l X c :
  c ∉ names X →
  getitem l c (<[l := X]> h) = (Raise (KeyError c), <[l := X]> h).
Proof.
  intros Hc. rewrite getitem_insert. unfold df_get.
  by rewrite assoc_None.
Qed.

Lemma skip_step (h : heap) l X c :
  c ∉ names X →
  (df_columns l ≫= λ cols : list string,
     if bool_decide (c ∈ cols)
     then getitem l c ≫= λ s : Series, setitem l c (to_numeric s)
     else ret ()) (<[l := X]> h)
  = (Ok (), <[l := X]> h).
Proof.
  intros Hc. erewrite bind_ok by apply df_columns_insert.
  by rewrite bool_decide_eq_false_2.
Qed.

Lemma names_assoc_set c s cols :
  (assoc_set c s cols).*1
  = if decide (c ∈ cols.*1) then cols.*1 else (cols.*1 ++ [c])%list.
Proof.
  induction cols as [|[c' s'] cols IH]; [done|].
  cbn [assoc_set]. destruct (decide (c' = c)) as [->|Hne].
  - rewrite !fmap_cons. cbn [fst]. rewrite decide_True; [done|by left].
  - rewrite !fmap_cons, IH. cbn [fst].
    destruct (decide (c ∈ cols.*1)) as [Hin|Hin].
    + rewrite decide_True; [done|by right].
    + rewrite decide_False; [done|]. by intros [?|?]%elem_of_cons.
Qed.

Lemma names_df_set df c s :
  names (df_set df c s)
  = if decide (c ∈ names df) then names df else (names df ++ [c])%list.
Proof. apply names_assoc_set. Qed.

Lemma names_df_set_elem df c s c' :
  c' ∈ names (df_set df c s) ↔ c' = c ∨ c' ∈ names df.
Proof.
  rewrite names_df_set. case_decide.
  - split; [auto|]. by intros [->|?].
  - rewrite elem_of_app, list_elem_of_singleton. tauto.
Qed.

(** [prepare_kpis] guards the coercion of the two base columns, but not
    their use: a table without TotalClaims is refused with
    [KeyError "TotalClaims"], and a table with TotalClaims and without
    TotalPremium with [KeyError "TotalPremium"]. The objects the store
    held are as they were. *)
Theorem prepare_kpis_missing_column (h : heap) (l : loc) (df : DataFrame) :
  h !! l = Some df →
  ¬ ("TotalClaims" ∈ names df ∧ "TotalPremium" ∈ names df) →
  (prepare_kpis l h).1
    = Raise (KeyError (if decide ("TotalClaims" ∈ names df)
                       then "TotalPremium" else "TotalClaims")) ∧
  ∀ l0 df0, h !! l0 = Some df0 → (prepare_kpis l h).2 !! l0 = Some df0.
Proof.
  intros Hl Hmiss. split; [|intros l0 df0; eapply prepare_kpis_store;
                            apply surjective_pairing].
  unfold prepare_kpis. set (l' := fresh (dom h)).
  erewrite bind_ok; [|unfold df_copy; rewrite Hl; reflexivity].
  fold l'.
  destruct (decide ("TotalClaims" ∈ names df)) as [H1|H1].
  - assert ("TotalPremium" ∉ names df) as H2 by tauto.
    apply assoc_is_Some in H1 as [s1 H1].
    erewrite bind_ok; cycle 1.
    { change (for_each ?l ?b) with (b "TotalClaims";; b "TotalPremium";; ret ()).
      erewrite bind_ok by (apply coerce_step, H1).
      erewrite bind_ok; [reflexivity|].
      apply skip_step. rewrite names_df_set_elem. intros [?|?]; [done|]. exact (H2 H). }
    pose proof (to_numeric_numeric s1) as Hn1.
    destruct (to_numeric s1) as [ts|ts|?]; [| |done].
    all: repeat (erewrite bind_ok;
      [| first [ apply setitem_insert
               | apply loc_set_nan_ok;
                 repeat (rewrite df_get_set_eq || rewrite df_get_set_ne by done);
                 reflexivity
               | apply getitem_ok;
                 repeat (rewrite df_get_set_eq || rewrite df_get_set_ne by done);
                 reflexivity
               | reflexivity ] ]).
    all: erewrite bind_raise; [reflexivity|].
    all: apply getitem_raise; rewrite !names_df_set_elem; intros Hx;
      repeat (destruct Hx as [Hx|Hx]; [done|]); by apply H2.
  - destruct (decide ("TotalPremium" ∈ names df)) as [H2|H2].
    + apply assoc_is_Some in H2 as [s2 H2].
      erewrite bind_ok; cycle 1.
      { change (for_each ?l ?b) with (b "TotalClaims";; b "TotalPremium";; ret ()).
        erewrite bind_ok by (by apply skip_step).
        erewrite bind_ok; [reflexivity|]. apply coerce_step, H2. }
      erewrite bind_raise; [reflexivity|].
      apply getitem_raise. rewrite names_df_set_elem. intros [?|?]; [done|by apply H1].
    + erewrite bind_ok; cycle 1.
      { change (for_each ?l ?b) with (b "TotalClaims";; b "TotalPremium";; ret ()).
        erewrite bind_ok by (by apply skip_step).
        erewrite bind_ok; [reflexivity|]. by apply skip_step. }
      erewrite bind_raise; [reflexivity|]. by apply getitem_raise.
Qed.

(** ** The groups of a column, and [min_count] *)

Lemma group_keys_NoDup labs : NoDup (group_keys labs).
Proof.
  unfold group_keys. rewrite merge_sort_Permutation. apply NoDup_remove_dups.
Qed.

Lemma elem_of_group_keys labs k : k ∈ group_keys labs ↔ Some k ∈ labs.
Proof.
  unfold group_keys. rewrite merge_sort_Permutation, elem_of_remove_dups.
  rewrite list_elem_of_omap. split.
  - intros ([k'|] & Hin & Heq); by simplify_eq/=.
  - intros Hin. by exists (Some k).
Qed.

(** Raising [min_count] only removes rows: the result for a larger
    threshold is the result for a smaller one, filtered. *)
Theorem agg_by_group_min_count_mono (df : DataFrame) (group_col : string)
    (m m' : Z) :
  m ≤ m' →
  agg_by_group df group_col m'
  = rbind (agg_by_group df group_col m)
          (λ g, Ok (filter (λ r, m' ≤ n_policies r) g)).
Proof.
  intros Hm. unfold agg_by_group.
  destruct (df_get df group_col) as [gc|]; [|done]. cbn [rbind].
  destruct (labels gc) as [labs|]; [|done]. cbn [rbind].
  destruct (mapR (agg_select df group_col) _); [|done]. cbn [rbind].
  destruct (mapR (agg_row df group_col labs) _) as [g0|]; [|done]. cbn [rbind].
  f_equal. rewrite list_filter_filter. apply list_filter_iff. intros r. lia.
Qed.

(** ** [kruskal_test_numeric] *)

Section KruskalProofs.
Variable kruskal : list Series → result (F * F).

(** The loop keeps, in the order of the groups, those with [min_count]
    defined values or more. *)
Lemma kruskal_collect_filter df labs numeric_col nc min_count todo groups found :
  df_get df numeric_col = Ok nc →
  let used := filter (λ k, min_count ≤ len (group_sample labs nc k)) todo in
  kruskal_collect df labs numeric_col min_count todo groups found
  = Ok ((groups ++ (group_sample labs nc <$> used))%list, (found ++ used)%list).
Proof.
  intros Hnc. simpl. revert groups found.
  induction todo as [|k todo IH]; intros groups found.
  - simpl. by rewrite !app_nil_r.
  - cbn [kruskal_collect]. cbv zeta.
    rewrite df_get_filter, Hnc. cbn [rbind].
    rewrite filter_cons. fold (group_sample labs nc k).
    case_bool_decide; case_decide; try done.
    rewrite IH. by rewrite fmap_cons, <- !app_assoc.
Qed.

(** With the grouping column and the numeric column in the table,
    [kruskal_test_numeric] tests the samples of the groups that have
    [min_count] defined values or more, taken in the order of the
    groups, each group once; with fewer than two such groups it runs no
    test and returns the error with the groups found. *)
Theorem kruskal_test_numeric_result (df : DataFrame)
    (group_col numeric_col : string) (min_count : Z) (gc nc : Series)
    (labs : list (option key)) :
  df_get df group_col = Ok gc →
  labels gc = Ok labs →
  df_get df numeric_col = Ok nc →
  let used :=
    filter (λ k, min_count ≤ len (group_sample labs nc k)) (group_keys labs) in
  kruskal_test_numeric kruskal df group_col numeric_col min_count
  = (if bool_decide (length used < 2)%nat then
       Ok [("error", PStr "not enough groups with required observations");
           ("groups_found", PKeys used)]
     else
       rbind (kruskal (group_sample labs nc <$> used)) (λ sp,
       Ok [("statistic", PFloat sp.1);
           ("pvalue", PFloat sp.2);
           ("groups_used", PKeys used)])) ∧
  NoDup used ∧
  Forall (λ k, Some k ∈ labs) used.
Proof.
  intros Hgc Hlabs Hnc used. split_and!.
  - unfold kruskal_test_numeric. rewrite Hgc; cbn [rbind]. rewrite Hlabs; cbn [rbind].
    rewrite (kruskal_collect_filter _ _ _ nc) by done. cbn [rbind app].
    fold used. rewrite length_fmap.
    case_bool_decide; [done|].
    by destruct (kruskal _) as [[stat p]|].
  - apply NoDup_filter, group_keys_NoDup.
  - apply Forall_forall. intros k [_ Hk]%list_elem_of_filter.
    by apply elem_of_group_keys.
Qed.

Lemma names_df_filter m df : names (df_filter m df) = names df.
Proof.
  unfold names, df_filter. simpl. rewrite <- list_fmap_compose.
  by apply list_fmap_ext.
Qed.

Lemma df_get_missing df c : c ∉ names df → df_get df c = Raise (KeyError c).
Proof. intros Hc. unfold df_get. by rewrite assoc_None. Qed.

(** A numeric column that is not in the table is looked up once for
    every group: with no group at all (an empty table, or the grouping
    column missing in every row) the function returns its error
    dictionary, with one group or more it raises [KeyError]. *)
Theorem kruskal_test_numeric_missing_numeric_col (df : DataFrame)
    (group_col numeric_col : string) (min_count : Z) (gc : Series)
    (labs : list (option key)) :
  df_get df group_col = Ok gc →
  labels gc = Ok labs →
  numeric_col ∉ names df →
  kruskal_test_numeric kruskal df group_col numeric_col min_count
  = if bool_decide (Forall (λ o, o = None) labs)
    then Ok [("error", PStr "not enough groups with required observations");
             ("groups_found", PKeys [])]
    else Raise (KeyError numeric_col).
Proof.
  intros Hgc Hlabs Hnc.
  unfold kruskal_test_numeric. rewrite Hgc; cbn [rbind]. rewrite Hlabs; cbn [rbind].
  destruct (group_keys labs) as [|k ks] eqn:Hks.
  - rewrite bool_decide_eq_true_2; [done|].
    apply Forall_forall. intros [k|] Hk; [|done].
    apply elem_of_group_keys in Hk. rewrite Hks in Hk. by apply elem_of_nil in Hk.
  - assert (¬ Forall (λ o, o = None) labs) as Hsome.
    { intros Hall. assert (Some k ∈ labs) as Hk.
      { apply elem_of_group_keys. rewrite Hks. by left. }
      by apply (proj1 (Forall_forall _ _) Hall) in Hk. }
    rewrite (bool_decide_eq_false_2 _ Hsome).
    cbn [kruskal_collect]. cbv zeta.
    rewrite df_get_missing by (by rewrite names_df_filter). done.
Qed.

End KruskalProofs.

(** ** [proportion_ztest_pair]: a group that is not found *)

Section FrequencyTestsProofs.
Variable proportions_ztest : list Z → list Z → F * F.

(** The groups of a column in which no two distinct values among [a]
    and [b] occur. *)
Lemma group_keys_short labs a b :
  (∀ k, Some k ∈ labs → k = a ∨ k = b) →
  ¬ (Some a ∈ labs ∧ Some b ∈ labs ∧ a ≠ b) →
  (length (group_keys labs) ≤ 1)%nat.
Proof.
  intros Hin Hnot.
  pose proof (group_keys_NoDup labs) as Hnd.
  assert (∀ k, k ∈ group_keys labs → Some k ∈ labs ∧ (k = a ∨ k = b)) as Hel.
  { intros k Hk%elem_of_group_keys. auto. }
  destruct (group_keys labs) as [|x [|y l]]; simpl; [lia|lia|]. exfalso.
  apply NoDup_cons in Hnd as [Hxy _].
  assert (x ≠ y) as Hne by (intros ->; apply Hxy; by left).
  destruct (Hel x) as [Hx Hx']; [by left|].
  destruct (Hel y) as [Hy Hy']; [right; by left|].
  apply Hnot. by destruct Hx' as [->| ->], Hy' as [->| ->].
Qed.

(** Unless the two group values are distinct and both occur in the
    grouping column, [proportion_ztest_pair] runs no test: it returns
    the error with the counts of the one group found, if any. *)
Theorem proportion_ztest_pair_group_not_found (df : DataFrame)
    (group_col : string) (group_a group_b : key) (gc : Series)
    (labs : list (option key)) (hc : list Z) :
  df_get df group_col = Ok gc →
  labels gc = Ok labs →
  df_get df "HasClaim" = Ok (SInt hc) →
  ¬ (Some group_a ∈ labs ∧ Some group_b ∈ labs ∧ group_a ≠ group_b) →
  ∃ counts nobs,
    proportion_ztest_pair proportions_ztest df group_col group_a group_b
    = Ok [("error", PStr "groups not found or insufficient data");
          ("counts", PSeries counts);
          ("nobs", PSeries nobs)] ∧
    (length counts ≤ 1)%nat ∧
    counts.*1 = nobs.*1 ∧
    Forall (λ k, Some k ∈ labs ∧ (k = group_a ∨ k = group_b)) counts.*1.
Proof.
  intros Hgc Hlabs Hhc Hnot.
  set (P := λ o : option key, o = Some group_a ∨ o = Some group_b).
  set (m := (λ o, bool_decide (P o)) <$> labs).
  unfold proportion_ztest_pair. rewrite Hgc; cbn [rbind].
  rewrite (series_isin_pair gc labs group_a group_b Hlabs). cbv zeta.
  change ((λ o, bool_decide (o = Some group_a ∨ o = Some group_b)) <$> labs)
    with m.
  assert (mask_filter m labs = filter P labs) as Hsub
    by apply mask_filter_pred.
  assert (∀ k, Some k ∈ filter P labs ↔ Some k ∈ labs ∧ (k = group_a ∨ k = group_b))
    as Hel.
  { intros k. rewrite list_elem_of_filter. unfold P. split.
    - intros [[?|?] ?]; simplify_eq; auto.
    - intros [? [->| ->]]; auto. }
  assert (length (group_keys (filter P labs)) ≤ 1)%nat as Hshort.
  { apply (group_keys_short _ group_a group_b).
    - intros k Hk. by apply Hel in Hk as [_ ?].
    - intros (Ha & Hb & Hne). apply Hnot.
      apply Hel in Ha as [? _]. apply Hel in Hb as [? _]. done. }
  assert (∀ (f : Series → result num) (v : key → num),
    (∀ k, f (series_filter (group_mask (filter P labs) k)
               (series_filter m (SInt hc))) = Ok (v k)) →
    groupby_agg (df_filter m df) group_col "HasClaim" f
    = Ok ((λ k, (k, v k)) <$> group_keys (filter P labs))) as Hgb.
  { intros f v Hf. unfold groupby_agg.
    rewrite !df_get_filter, Hgc, Hhc; cbn [rbind].
    rewrite (labels_series_filter m gc labs Hlabs); cbn [rbind].
    rewrite Hsub. apply mapR_fmap. intros k. by rewrite Hf. }
  rewrite (Hgb series_sum _ (λ k, eq_refl)); cbn [rbind].
  rewrite (Hgb (λ s, Ok (NI (series_count s))) _ (λ k, eq_refl)); cbn [rbind].
  set (keys := group_keys (filter P labs)) in *.
  assert (Forall (λ k, Some k ∈ labs ∧ (k = group_a ∨ k = group_b)) keys) as Hkeys.
  { apply Forall_forall. intros k Hk%elem_of_group_keys. by apply Hel. }
  destruct keys as [|x [|y l]]; [| |simpl in Hshort; lia].
  - eexists [], []. by split_and!.
  - eexists [_], [_]. split_and!; [reflexivity|simpl; lia|done|done].
Qed.

End FrequencyTestsProofs.

(** ** The samples of [ttest_or_mannwhitney] *)

Lemma series_eq_labels s labs k :
  labels s = Ok labs → series_eq s k = group_mask labs k.
Proof.
  assert (∀ o, obj_eq_key o k = bool_decide (obj_label o = Some k)) as Heq.
  { intros [s0|z|]; destruct k as [w|t]; simpl; try done;
      apply bool_decide_ext; split; congruence. }
  unfold group_mask.
  destruct s as [l|l|l]; simpl; intros [= <-]; rewrite <- list_fmap_compose;
    apply list_fmap_ext; intros _ x _; simpl.
  - apply (Heq (OInt x)).
  - apply Heq.
Qed.

(** Selecting the rows of the two groups first does not change the
    sample of either. *)
Lemma extract_sample_group_sample gc nc labs a b k :
  labels gc = Ok labs →
  length labs = series_len nc →
  k = a ∨ k = b →
  extract_sample gc nc a b k = group_sample labs nc k.
Proof.
  intros Hlabs Hlen Hk. unfold extract_sample, group_sample. cbv zeta.
  rewrite (series_isin_pair gc labs a b Hlabs).
  set (P := λ o : option key, o = Some a ∨ o = Some b).
  change (λ o, bool_decide (o = Some a ∨ o = Some b))
    with (λ o, bool_decide (P o)).
  rewrite (series_eq_labels _ _ k (labels_series_filter _ gc labs Hlabs)).
  assert (P (Some k)) as HP by (destruct Hk as [->| ->]; [by left|by right]).
  f_equal. destruct nc as [l|l|l]; simpl in *; f_equal;
    by apply (mask_filter_group_sub P).
Qed.

Lemma group_mask_absent {A} labs k (xs : list A) :
  Some k ∉ labs → mask_filter (group_mask labs k) xs = [].
Proof.
  unfold group_mask. revert xs.
  induction labs as [|o labs IH]; intros [|x xs] Hk; simpl; try done.
  rewrite bool_decide_eq_false_2 by (intros ->; apply Hk; by left).
  apply IH. intros ?. apply Hk. by right.
Qed.

Lemma group_sample_absent labs nc k :
  Some k ∉ labs → len (group_sample labs nc k) = 0.
Proof.
  intros Hk. unfold group_sample, len.
  destruct nc as [l|l|l]; simpl; by rewrite group_mask_absent.
Qed.

Section TwoGroupTestProofs.
Variable sample : Z → Series → result Series.
Variable shapiro : Series → result F.
Variable ttest_ind : Series → Series → bool → string → F * F.
Variable mannwhitneyu : Series → Series → string → F * F.

Local Abbreviation ttest_or_mannwhitney' :=
  (ttest_or_mannwhitney sample shapiro ttest_ind mannwhitneyu).
Local Abbreviation compare_samples' :=
  (compare_samples sample shapiro ttest_ind mannwhitneyu).

Lemma ttest_or_mannwhitney_group_samples df group_col a b numeric_col
    gc nc labs lg :
  wf_df df →
  df_get df group_col = Ok gc →
  labels gc = Ok labs →
  df_get df numeric_col = Ok nc →
  ttest_or_mannwhitney' df group_col a b numeric_col lg
  = compare_samples' (group_sample labs nc a) (group_sample labs nc b) lg.
Proof.
  intros Hwf Hgc Hlabs Hnc.
  assert (length labs = series_len nc) as Hlen.
  { rewrite (labels_length _ _ Hlabs).
    rewrite (wf_df_len df group_col gc Hwf (df_get_Ok_assoc _ _ _ Hgc)).
    by rewrite (wf_df_len df numeric_col nc Hwf (df_get_Ok_assoc _ _ _ Hnc)). }
  rewrite (ttest_or_mannwhitney_extract _ _ _ _ _ _ _ _ _ gc nc) by done.
  rewrite !(extract_sample_group_sample gc nc labs) by auto. done.
Qed.

(** When one of the two group values does not occur in the grouping
    column, [ttest_or_mannwhitney] does not raise: it reports "too few
    observations" with size 0 for that group, and calls no routine. *)
Theorem ttest_or_mannwhitney_group_absent (df : DataFrame) (group_col : string)
    (group_a group_b : key) (numeric_col : string) (gc nc : Series)
    (labs : list (option key)) (lg : log) :
  wf_df df →
  df_get df group_col = Ok gc →
  labels gc = Ok labs →
  df_get df numeric_col = Ok nc →
  Some group_a ∉ labs ∨ Some group_b ∉ labs →
  ∃ na nb,
    ttest_or_mannwhitney' df group_col group_a group_b numeric_col lg
      = (Ok [("error", PStr "too few observations");
             ("n_a", PInt na); ("n_b", PInt nb)], lg) ∧
    (Some group_a ∉ labs → na = 0) ∧
    (Some group_b ∉ labs → nb = 0).
Proof.
  intros Hwf Hgc Hlabs Hnc Habs.
  rewrite (ttest_or_mannwhitney_group_samples _ _ _ _ _ gc nc labs) by done.
  unfold compare_samples. cbv zeta.
  assert (bool_decide (len (group_sample labs nc group_a) < 5)
          || bool_decide (len (group_sample labs nc group_b) < 5) = true) as ->.
  { apply orb_true_iff. rewrite !bool_decide_eq_true.
    destruct Habs as [H|H]; apply (group_sample_absent _ nc) in H; lia. }
  eexists _, _. split; [reflexivity|].
  split; intros H; by apply group_sample_absent.
Qed.

End TwoGroupTestProofs.

(** ** A grouping column that is not in the table *)

Section MissingGroupColumn.
Variable chi2_contingency : list (list num) → F * F * Z * list (list F).
Variable proportions_ztest : list Z → list Z → F * F.
Variable kruskal : list Series → result (F * F).
Variable sample : Z → Series → result Series.
Variable shapiro : Series → result F.
Variable ttest_ind : Series → Series → bool → string → F * F.
Variable mannwhitneyu : Series → Series → string → F * F.


End MissingGroupColumn.

(** ** [pretty_interpret] *)

Section InterpretProofs.
Variable format_4g : F → string.
Variable format_repr : F → string.

(** A p-value or a level that is NaN compares false: the message is
    the one that fails to reject. *)
Theorem pretty_interpret_nan `{!Float64Laws F} (pvalue alpha : F) :
  (∀ x y, isnan y = true → fgt x y = false) →
  isnan pvalue = true ∨ isnan alpha = true →
  pretty_interpret format_4g format_repr pvalue alpha
  = "p = " ++ format_4g pvalue ++ " >= " ++ format_repr alpha
      ++ " -> Fail to reject H0 (not statistically significant)".
Proof.
  intros Hnan Hp. unfold pretty_interpret.
  destruct Hp as [Hp|Hp]; [by rewrite Hnan|by rewrite fgt_nan_l].
Qed.

End InterpretProofs.
End Model.

Arguments DataFrame : clear implicits.
Arguments Series : clear implicits.

(** * The laws hold of exact fractions, and the theorems apply *)

Import ExactFloat.

Global Instance ExactFloat_laws : Float64Laws xq.
Proof.
  split.
  - done.
  - by intros [] [].
  - intros [[n d]| | |]; simpl; try done.
    unfold Qdiv, Qmult, Qinv; simpl.
    by rewrite Z.mul_1_r, Pos.mul_1_r.
  - by intros [] [].
  - by intros [] [].
Qed.

Section Examples.

Local Abbreviation heap := (gmap positive (DataFrame xq)).
Local Abbreviation policies_heap := ({[ 1%positive := policies_df ]} : heap).
Local Abbreviation margin_heap := ({[ 1%positive := margin_df ]} : heap).

(** The rows of the KPI table of the table with text and gaps. *)
Lemma prepare_kpis_rows_witness :
  ∃ l' df',
    prepare_kpis 1%positive policies_heap = (Ok l', <[l' := df']> policies_heap) ∧
    nrows df' = nrows (policies_df (F:=xq)) ∧
    ∀ i, (i < nrows df')%nat →
      ∃ tc tp hc cs lr mg,
        df_cell df' "TotalClaims" i = Some (CNum tc) ∧
        df_cell df' "TotalPremium" i = Some (CNum tp) ∧
        df_cell df' "HasClaim" i = Some (CNum (NI hc)) ∧
        df_cell df' "ClaimSeverity" i = Some (CNum (NF cs)) ∧
        df_cell df' "LossRatio" i = Some (CNum (NF lr)) ∧
        df_cell df' "Margin" i = Some (CNum mg) ∧
        (hc = 0 ∨ hc = 1) ∧
        (hc = 1 ↔ num_gt0 tc = true) ∧
        (hc = 1 → cs = num_F tc) ∧
        (hc = 0 → isnan cs = true) ∧
        (num_gt0 tp = true → lr = num_truediv tc tp) ∧
        (num_gt0 tp = false → isnan lr = true) ∧
        mg = num_sub tp tc.
Proof.
  apply (prepare_kpis_rows policies_heap 1%positive policies_df).
  - vm_compute. reflexivity.
  - by_compute.
  - by_compute.
  - by_compute.
Defined.

(** Row 1 of that table, whose claims are the text "x". *)
Lemma prepare_kpis_missing_claims_witness :
  ∃ l' df' cs lr mg,
    prepare_kpis 1%positive policies_heap = (Ok l', <[l' := df']> policies_heap) ∧
    df_cell df' "HasClaim" 1 = Some (CNum (NI 0)) ∧
    df_cell df' "ClaimSeverity" 1 = Some (CNum (NF cs)) ∧ isnan cs = true ∧
    df_cell df' "LossRatio" 1 = Some (CNum (NF lr)) ∧ isnan lr = true ∧
    df_cell df' "Margin" 1 = Some (CNum (NF mg)) ∧ isnan mg = true.
Proof.
  apply (prepare_kpis_missing_claims policies_heap 1%positive policies_df 1
           (CObj (OStr "x")) NaN).
  - vm_compute. reflexivity.
  - by_compute.
  - by_compute.
  - vm_compute. reflexivity.
  - vm_compute. reflexivity.
  - vm_compute. reflexivity.
Defined.

(** Deriving the KPIs of that table twice. *)
Lemma prepare_kpis_idempotent_witness :
  ∃ l1 df1 l2 df2,
    prepare_kpis 1%positive policies_heap = (Ok l1, <[l1 := df1]> policies_heap) ∧
    prepare_kpis l1 (<[l1 := df1]> policies_heap)
      = (Ok l2, <[l2 := df2]> (<[l1 := df1]> policies_heap)) ∧
    l2 ≠ l1 ∧
    Forall (λ c, ∃ s, df_get df1 c = Ok s ∧ df_get df2 c = Ok s) derived_names ∧
    df2 = df1.
Proof.
  apply (prepare_kpis_idempotent policies_heap 1%positive policies_df).
  - vm_compute. reflexivity.
  - by_compute.
  - by_compute.
Defined.

(** C9, as stated, fails: a column other than TotalClaims and
    TotalPremium is changed when it has the name of a derived column. *)
Lemma prepare_kpis_overwrites_margin :
  ∃ l' df',
    margin_heap !! 1%positive = Some margin_df ∧
    (prepare_kpis 1%positive margin_heap).1 = Ok l' ∧
    (prepare_kpis 1%positive margin_heap).2 !! l' = Some df' ∧
    df_get (margin_df (F:=xq)) "Margin" = Ok (SInt [7]) ∧
    df_get df' "Margin" = Ok (SInt [100]) ∧
    ¬ columns_kept ["TotalClaims"; "TotalPremium"] margin_df df'.
Proof.
  exists 2%positive, (kpi_frame margin_df (SInt [0]) (SInt [100])).
  split_and!; [by vm_compute..|].
  intros Hk. specialize (Hk "Margin").
  assert (@Ok (Series xq) (SInt [100]) = Ok (SInt [7])) as [=].
  apply Hk; by_compute.
Qed.

(** The store and the columns around the table with a Margin column. *)
Lemma prepare_kpis_frame_witness :
  (∀ l0 df0, margin_heap !! l0 = Some df0 →
     (prepare_kpis 1%positive margin_heap).2 !! l0 = Some df0) ∧
  ("TotalClaims" ∈ names (margin_df (F:=xq)) →
   "TotalPremium" ∈ names (margin_df (F:=xq)) →
   ∃ l' df',
     prepare_kpis 1%positive margin_heap = (Ok l', <[l' := df']> margin_heap) ∧
     margin_heap !! l' = None ∧
     index df' = index (margin_df (F:=xq)) ∧
     columns_kept kpi_names margin_df df').
Proof.
  apply (prepare_kpis_frame margin_heap 1%positive margin_df).
  vm_compute. reflexivity.
Defined.

(** [agg_by_group] on a table with all the KPI columns. *)
Example agg_by_group_regions :
  n_policies <$>
    match agg_by_group (F:=xq)
            (df_set (df_set (df_set regions_df
               "ClaimSeverity" (SFloat [Fin 1; NaN; NaN; Fin 2; Fin 3; NaN]))
               "LossRatio" (SFloat [Fin 1; NaN; NaN; Fin 2; Fin 3; NaN]))
               "Margin" (SInt [1; 2; 3; 4; 5; 6]))
            "Region" 2 with
    | Ok g => g
    | Raise _ => []
    end
  = [3; 2].
Proof. vm_compute. reflexivity. Qed.


(** The two branches of [chi2_test_frequency], evaluated. *)
Example chi2_test_frequency_regions :
  chi2_test_frequency (F:=xq) chi2_zero regions_df "Region" 2
  = Ok [("statistic", PFloat (Fin 0)); ("pvalue", PFloat (Fin 1));
        ("dof", PInt 1); ("expected", PFloatTable []);
        ("groups_used", PKeys [KStr "A"; KStr "B"]);
        ("contingency_table", PTable [[NI 1; NI 1]; [NI 1; NI 2]])] ∧
  chi2_test_frequency (F:=xq) chi2_zero regions_df "Region" 3
  = Ok [("error", PStr "not enough groups with min_count");
        ("groups", PKeys [KStr "B"])].
Proof. split; vm_compute; reflexivity. Qed.

(** C2, as stated, fails: group B is met first in the rows, and its
    counts come second. *)
Lemma proportion_ztest_pair_row_order_fails :
  let labs := [Some (KStr "B"); Some (KStr "A"); Some (KStr "B")] in
  let hc := [1; 0; 1] in
  ∃ d,
    labels (F:=xq) (SObj [OStr "B"; OStr "A"; OStr "B"]) = Ok labs ∧
    encounter_order labs = [KStr "B"; KStr "A"] ∧
    proportion_ztest_pair (F:=xq) ztest_zero b_first_df "Region"
      (KStr "B") (KStr "A") = Ok d ∧
    dict_get d "count" = Some (PInts [0; 2]) ∧
    dict_get d "nobs" = Some (PInts [1; 2]) ∧
    ¬ counts_in_encounter_order labs hc d.
Proof.
  intros labs hc. eexists. split_and!; [by vm_compute..|].
  intros [Hc _]. vm_compute in Hc. discriminate Hc.
Qed.

(** The same table: the counts come in the order A, B. *)
Lemma proportion_ztest_pair_sorted_witness :
  let labs := [Some (KStr "B"); Some (KStr "A"); Some (KStr "B")] in
  let hc := [1; 0; 1] in
  let lo := if key_leb (KStr "B") (KStr "A") then KStr "B" else KStr "A" in
  let hi := if key_leb (KStr "B") (KStr "A") then KStr "A" else KStr "B" in
  let count := [n_with labs hc lo 1; n_with labs hc hi 1] in
  let nobs := [n_rows labs lo; n_rows labs hi] in
  proportion_ztest_pair (F:=xq) ztest_zero b_first_df "Region" (KStr "B") (KStr "A")
  = Ok [("statistic", PFloat (ztest_zero count nobs).1);
        ("pvalue", PFloat (ztest_zero count nobs).2);
        ("count", PInts count);
        ("nobs", PInts nobs)].
Proof.
  apply (proportion_ztest_pair_sorted ztest_zero b_first_df "Region"
           (KStr "B") (KStr "A") (SObj [OStr "B"; OStr "A"; OStr "B"])).
  - by_compute.
  - by_compute.
  - vm_compute. reflexivity.
  - vm_compute. reflexivity.
  - vm_compute. reflexivity.
  - by_compute.
  - by_compute.
  - by_compute.
  - by_compute.
Defined.

(** Groups A (10 claims in 100 rows) and B (20 claims in 100 rows). *)
Example proportion_ztest_pair_hundreds :
  proportion_ztest_pair (F:=xq) ztest_zero hundreds_df "Region" (KStr "A") (KStr "B")
  = Ok [("statistic", PFloat (Fin 0)); ("pvalue", PFloat (Fin 1));
        ("count", PInts [10; 20]); ("nobs", PInts [100; 100])].
Proof. vm_compute. reflexivity. Qed.

Local Abbreviation run_test shapiro n :=
  (ttest_or_mannwhitney (F:=xq) sample_all shapiro ttest_zero mannwhitneyu_zero
     (two_groups_df n) "Region" (KStr "A") (KStr "B") "Margin" []).
Local Abbreviation sample_a n :=
  (extract_sample (F:=xq) (two_groups_region n) (two_groups_margin n)
     (KStr "A") (KStr "B") (KStr "A")).
Local Abbreviation sample_b n :=
  (extract_sample (F:=xq) (two_groups_region n) (two_groups_margin n)
     (KStr "A") (KStr "B") (KStr "B")).

(** Two groups of three rows. *)
Lemma ttest_or_mannwhitney_too_few_witness :
  ∃ d,
    run_test shapiro_half 3%nat = (Ok d, []) ∧
    is_Some (dict_get d "error") ∧
    dict_get d "n_a" = Some (PInt (len (sample_a 3%nat))) ∧
    dict_get d "n_b" = Some (PInt (len (sample_b 3%nat))) ∧
    dict_get d "test" = None ∧
    dict_get d "statistic" = None ∧
    dict_get d "pvalue" = None.
Proof.
  apply (ttest_or_mannwhitney_too_few sample_all shapiro_half ttest_zero
           mannwhitneyu_zero (two_groups_df 3) "Region" (KStr "A") (KStr "B")
           "Margin" (two_groups_region 3) (two_groups_margin 3) []).
  - vm_compute. reflexivity.
  - vm_compute. reflexivity.
  - left. by_compute.
Defined.

(** Sizes 3 and 3: the error result, and nothing was called. *)
Example ttest_or_mannwhitney_three_and_three :
  run_test shapiro_half 3%nat
  = (Ok [("error", PStr "too few observations");
         ("n_a", PInt 3); ("n_b", PInt 3)], []).
Proof. vm_compute. reflexivity. Qed.

(** Two groups of thirty rows that pass the normality check. *)
Lemma ttest_or_mannwhitney_choice_witness :
  let a := sample_a 30%nat in
  let b := sample_b 30%nat in
  let welch :=
    (∃ pa pb, shapiro_pvalue sample_all shapiro_half a = Ok pa ∧
              shapiro_pvalue sample_all shapiro_half b = Ok pb ∧
              fgt pa f0_05 = true ∧ fgt pb f0_05 = true) ∧
    30 ≤ len a ∧ 30 ≤ len b in
  ∃ d pre c,
    run_test shapiro_half 30%nat = (Ok d, ([] ++ pre ++ [c])%list) ∧
    Forall is_normality_call pre ∧
    (dict_get d "test" = Some (PStr "t-test (Welch)") ↔ welch) ∧
    (welch →
       c = CallTtestInd a b false "omit" ∧
       d = [("test", PStr "t-test (Welch)");
            ("statistic", PFloat (ttest_zero a b false "omit").1);
            ("pvalue", PFloat (ttest_zero a b false "omit").2);
            ("n_a", PInt (len a)); ("n_b", PInt (len b))]) ∧
    (¬ welch →
       c = CallMannWhitneyU a b "two-sided" ∧
       d = [("test", PStr "Mann-Whitney U");
            ("statistic", PFloat (mannwhitneyu_zero a b "two-sided").1);
            ("pvalue", PFloat (mannwhitneyu_zero a b "two-sided").2);
            ("n_a", PInt (len a)); ("n_b", PInt (len b))]).
Proof.
  apply (ttest_or_mannwhitney_choice sample_all shapiro_half ttest_zero
           mannwhitneyu_zero (two_groups_df 30) "Region" (KStr "A") (KStr "B")
           "Margin" (two_groups_region 30) (two_groups_margin 30) []).
  - vm_compute. reflexivity.
  - vm_compute. reflexivity.
  - by_compute.
  - by_compute.
Defined.

(** Two samples that pass the normality check: with 30 values each the
    t-test is chosen, with 10 each the Mann-Whitney U test. *)
Example ttest_or_mannwhitney_thirty_and_ten :
  (run_test shapiro_half 30%nat).1
  = Ok [("test", PStr "t-test (Welch)"); ("statistic", PFloat (Fin 0));
        ("pvalue", PFloat (Fin 1)); ("n_a", PInt 30); ("n_b", PInt 30)] ∧
  (run_test shapiro_half 10%nat).1
  = Ok [("test", PStr "Mann-Whitney U"); ("statistic", PFloat (Fin 0));
        ("pvalue", PFloat (Fin 1)); ("n_a", PInt 10); ("n_b", PInt 10)].
Proof. split; vm_compute; reflexivity. Qed.


(** ** Further examples *)

Local Abbreviation regions_heap := ({[ 1%positive := regions_df ]} : heap).

(** The table of the regions has neither base column. *)
Lemma prepare_kpis_missing_column_witness :
  (prepare_kpis 1%positive regions_heap).1
  = Raise (KeyError (if decide ("TotalClaims" ∈ names (regions_df (F:=xq)))
                     then "TotalPremium" else "TotalClaims")) ∧
  ∀ l0 df0, regions_heap !! l0 = Some df0 →
            (prepare_kpis 1%positive regions_heap).2 !! l0 = Some df0.
Proof.
  apply (prepare_kpis_missing_column regions_heap 1%positive regions_df).
  - vm_compute. reflexivity.
  - by_compute.
Defined.

Local Abbreviation regions_labs :=
  [Some (KStr "A"); Some (KStr "A"); Some (KStr "B");
   Some (KStr "B"); Some (KStr "B"); Some (KStr "C")].
Local Abbreviation regions_col :=
  (SObj [OStr "A"; OStr "A"; OStr "B"; OStr "B"; OStr "B"; OStr "C"]).

(** Thresholds 2 and 3 on the regions. *)
Lemma agg_by_group_min_count_mono_witness :
  agg_by_group (F:=xq) regions_kpi_df "Region" 3
  = rbind (agg_by_group regions_kpi_df "Region" 2)
          (λ g, Ok (filter (λ r, 3 ≤ n_policies r) g)).
Proof.
  apply (agg_by_group_min_count_mono regions_kpi_df "Region" 2 3). lia.
Defined.

Local Abbreviation two_groups_labs n :=
  (replicate n (Some (KStr "A")) ++ replicate n (Some (KStr "B")))%list.

(** Two groups of three rows, with two values or more required. *)
Lemma kruskal_test_numeric_result_witness :
  let labs := two_groups_labs 3%nat in
  let nc := two_groups_margin (F:=xq) 3 in
  let used := filter (λ k, 2 ≤ len (group_sample labs nc k)) (group_keys labs) in
  kruskal_test_numeric kruskal_zero (two_groups_df 3) "Region" "Margin" 2
  = (if bool_decide (length used < 2)%nat then
       Ok [("error", PStr "not enough groups with required observations");
           ("groups_found", PKeys used)]
     else
       rbind (kruskal_zero (group_sample labs nc <$> used)) (λ sp,
       Ok [("statistic", PFloat sp.1);
           ("pvalue", PFloat sp.2);
           ("groups_used", PKeys used)])) ∧
  NoDup used ∧
  Forall (λ k, Some k ∈ labs) used.
Proof.
  apply (kruskal_test_numeric_result kruskal_zero (two_groups_df 3) "Region"
           "Margin" 2 (two_groups_region 3) (two_groups_margin 3)).
  - vm_compute. reflexivity.
  - vm_compute. reflexivity.
  - vm_compute. reflexivity.
Defined.

(** The regions have no Margin column. *)
Lemma kruskal_test_numeric_missing_numeric_col_witness :
  kruskal_test_numeric (F:=xq) kruskal_zero regions_df "Region" "Margin" 2
  = if bool_decide (Forall (λ o, o = None) regions_labs)
    then Ok [("error", PStr "not enough groups with required observations");
             ("groups_found", PKeys [])]
    else Raise (KeyError "Margin").
Proof.
  apply (kruskal_test_numeric_missing_numeric_col kruskal_zero regions_df
           "Region" "Margin" 2 regions_col).
  - vm_compute. reflexivity.
  - vm_compute. reflexivity.
  - by_compute.
Defined.

(** There is no region Z. *)
Lemma proportion_ztest_pair_group_not_found_witness :
  ∃ counts nobs,
    proportion_ztest_pair (F:=xq) ztest_zero regions_df "Region"
      (KStr "A") (KStr "Z")
    = Ok [("error", PStr "groups not found or insufficient data");
          ("counts", PSeries counts);
          ("nobs", PSeries nobs)] ∧
    (length counts ≤ 1)%nat ∧
    counts.*1 = nobs.*1 ∧
    Forall (λ k, Some k ∈ regions_labs ∧ (k = KStr "A" ∨ k = KStr "Z")) counts.*1.
Proof.
  apply (proportion_ztest_pair_group_not_found ztest_zero regions_df "Region"
           (KStr "A") (KStr "Z") regions_col regions_labs [1; 0; 0; 1; 1; 0]).
  - vm_compute. reflexivity.
  - vm_compute. reflexivity.
  - vm_compute. reflexivity.
  - by_compute.
Defined.

(** Groups A and Z of a table with groups A and B. *)
Lemma ttest_or_mannwhitney_group_absent_witness :
  ∃ na nb,
    ttest_or_mannwhitney (F:=xq) sample_all shapiro_half ttest_zero
      mannwhitneyu_zero (two_groups_df 30) "Region" (KStr "A") (KStr "Z")
      "Margin" []
    = (Ok [("error", PStr "too few observations");
           ("n_a", PInt na); ("n_b", PInt nb)], []) ∧
    (Some (KStr "A") ∉ two_groups_labs 30%nat → na = 0) ∧
    (Some (KStr "Z") ∉ two_groups_labs 30%nat → nb = 0).
Proof.
  apply (ttest_or_mannwhitney_group_absent sample_all shapiro_half ttest_zero
           mannwhitneyu_zero (two_groups_df 30) "Region" (KStr "A") (KStr "Z")
           "Margin" (two_groups_region 30) (two_groups_margin 30)).
  - by_compute.
  - vm_compute. reflexivity.
  - vm_compute. reflexivity.
  - vm_compute. reflexivity.
  - right. by_compute.
Defined.


(** A p-value that is NaN, at the level 0.05. *)
Lemma pretty_interpret_nan_witness :
  pretty_interpret (F:=xq) (λ _, "nan") (λ _, "0.05") NaN f0_05
  = "p = " ++ "nan" ++ " >= " ++ "0.05"
      ++ " -> Fail to reject H0 (not statistically significant)".
Proof.
  apply (pretty_interpret_nan (λ _, "nan") (λ _, "0.05") NaN f0_05).
  - by intros [] [].
  - by left.
Defined.

(** The two branches of [kruskal_test_numeric], evaluated: two groups
    of three values, with two and with four values required. *)
Example kruskal_test_numeric_two_groups :
  kruskal_test_numeric (F:=xq) kruskal_zero (two_groups_df 3) "Region" "Margin" 2
  = Ok [("statistic", PFloat (Fin 0)); ("pvalue", PFloat (Fin 1));
        ("groups_used", PKeys [KStr "A"; KStr "B"])] ∧
  kruskal_test_numeric (F:=xq) kruskal_zero (two_groups_df 3) "Region" "Margin" 4
  = Ok [("error", PStr "not enough groups with required observations");
        ("groups_found", PKeys [])].
Proof. split; vm_compute; reflexivity. Qed.

End Examples.
